(** * Parking Assist Stoplight (sketch V2.11): uptime accounting and display power states

    A shallow embedding of the time accounting, sleep-window bookkeeping,
    timeout handling, LED selection and EEPROM store path of
    [parking_assist_stoplight_V2_11_modified_by_Coolman111.ino], and the
    properties of that code.

    Target: Arduino Nano (ATmega328P, avr-gcc).  [unsigned long] is 32 bits,
    [int] is 16 bits.  Machine integers are values of [Z]; every place where
    the C arithmetic wraps is written with [wrap32] or [int16].  The sensor
    distance is a [float] in the sketch; it is read here as the rational it
    denotes ([Q]), which is exact for the comparisons against the small
    integer thresholds.  The measuring loop that produces the distance is
    modelled with the rounding of single-precision arithmetic ([float32]).
    Differences of distances (the speed estimate, the offset set by the
    encoder switch) are taken over the rationals, without rounding.

    The millisecond counter behind [millis()] is a field of the state.  It
    advances in [delay()] and between the steps a scenario takes; the
    statements of one pass read the same value. *)

From Stdlib Require Import ZArith QArith Qabs Qround Qpower Lia Lqa List Bool.
From Stdlib Require Import Strings.String Strings.Ascii Numbers.DecimalString.
Import ListNotations.

Open Scope Z_scope.

(** ** Machine integers *)

Module Word.

Definition two32 : Z := 4294967296.
Definition two16 : Z := 65536.

(** Value of an [unsigned long] expression. *)
Definition wrap32 (z : Z) : Z := z mod two32.

(** Value stored when an integer is converted to a 16-bit [int]. *)
Definition int16 (z : Z) : Z := (z + 32768) mod two16 - 32768.

(** Value stored when an integer is converted to [uint8_t]. *)
Definition byte (z : Z) : Z := z mod 256.

Definition is_u32 (z : Z) : Prop := 0 <= z < two32.

End Word.
Import Word.

(** ** Text output helpers ([Serial.print], [sprintf]) *)

Open Scope string_scope.

(** Decimal digits of a non-negative number, as [print] and [%lu] render it. *)
Definition dec (n : Z) : string :=
  NilEmpty.string_of_uint (N.to_uint (Z.to_N n)).

Fixpoint spaces (k : nat) : string :=
  match k with
  | O => ""
  | S k' => String " " (spaces k')
  end.

Fixpoint zeros (k : nat) : string :=
  match k with
  | O => ""
  | S k' => String "0" (zeros k')
  end.

(** [%5lu]: right-justified in a field of at least five characters. *)
Definition fmt_5lu (n : Z) : string :=
  let d := dec n in spaces (5 - String.length d) ++ d.

(** [%02d]: zero-padded to at least two characters. *)
Definition fmt_02d (n : Z) : string :=
  if (n <? 0)%Z then "-" ++ dec (- n)%Z
  else let d := dec n in zeros (2 - String.length d) ++ d.

(** [ConvertSectoDay]: seconds to days, hours, minutes and seconds.
    [n] is an [unsigned long]; [86400] is a [long] constant, so the
    remainders and quotients are 32-bit unsigned; the results fit [int]. *)
Definition ConvertSectoDay (n : Z) : string :=
  let days := (n / 86400)%Z in
  let hours := int16 (n mod 86400 / 3600)%Z in
  let minutes := int16 (n mod 86400 mod 3600 / 60)%Z in
  let seconds := int16 (n mod 86400 mod 3600 mod 60)%Z in
  fmt_5lu days ++ "d" ++ fmt_02d hours ++ ":" ++ fmt_02d minutes
           ++ ":" ++ fmt_02d seconds.

Close Scope string_scope.

(** ** Program state

    The sketch keeps its state in global variables.  They are grouped here
    by the part of the program that owns them; field names are the names of
    the globals. *)

(** Uptime accumulator (updated only by [update_up_sec_from_millis]). *)
Record uptime : Type := mkUptime {
  up_mi : Z;            (* unsigned long *)
  up_mi_old : Z;        (* unsigned long *)
  diff_mi : Z;          (* unsigned long *)
  diff_sec : Z;         (* unsigned long *)
  up_sec_old : Z;       (* unsigned long, to detect up_sec overflow *)
  up_sec : Z            (* unsigned long, uptime in seconds *)
}.

(** Display sleep-time bookkeeping. *)
Record sleepwin : Type := mkSleepwin {
  displaysleeping : Z;  (* int, 1 = yes, 0 = no *)
  dst_start : Z;        (* unsigned long, start sleep (sec) *)
  dst_end : Z;          (* unsigned long, end sleep (sec) *)
  dst_dur : Z;          (* unsigned long, duration of sleep (sec) *)
  c_dst : Z;            (* unsigned long, display sleeptime in seconds *)
  c_dwt : Z;            (* unsigned long, display wake time in seconds *)
  c_uptime : Z          (* unsigned long, display field of uptime *)
}.

(** LED / display timeout handling. *)
Record timers : Type := mkTimers {
  leds_off : Z;         (* int *)
  dimmed : Z;           (* int *)
  start_timeout : Z;    (* unsigned long *)
  timeout : Z;          (* int *)
  last_move : Z;        (* unsigned long *)
  last_outofrange : Z;  (* unsigned long *)
  last_dist : Q;        (* float *)
  move_ps : Q           (* float *)
}.

(** Distance thresholds and the stop-distance setting. *)
Record lights : Type := mkLights {
  light0 : Z;           (* int *)
  light1 : Z;           (* int *)
  light2 : Z;           (* int *)
  light3 : Z;           (* int *)
  light1s : Z;          (* int, red distance, set by encoder or EEPROM *)
  counter : Z;          (* int, offset to light1s from the rotary encoder *)
  warning_limit : Z;    (* int *)
  E_value : Z           (* int, last value read from EEPROM *)
}.

(** Rotary encoder pin states seen by the interrupt routine. *)
Record encoder : Type := mkEncoder {
  currentStateCLK : bool;   (* HIGH = true *)
  previousStateCLK : bool
}.

(** The hardware the sketch talks to: the millisecond counter behind
    [millis()], the OLED, the EEPROM cells with the list of physical
    writes performed so far, the serial line and the beeper. *)
Record board : Type := mkBoard {
  clock : Z;
  oled_on : bool;               (* SSD1306_DISPLAYON / SSD1306_DISPLAYOFF *)
  oled_dim : bool;              (* display.dim(1) / display.dim(0) *)
  oled_text : string;           (* text shown by the last display.display() *)
  eeprom : Z -> Z;
  ee_writes : list (Z * Z);
  serial : list string;
  beeps : Z
}.

Record machine : Type := mkMachine {
  upt : uptime;
  slw : sleepwin;
  tmr : timers;
  lts : lights;
  enc : encoder;
  hw : board
}.

Definition with_upt (m : machine) (u : uptime) : machine :=
  mkMachine u (slw m) (tmr m) (lts m) (enc m) (hw m).
Definition with_slw (m : machine) (s : sleepwin) : machine :=
  mkMachine (upt m) s (tmr m) (lts m) (enc m) (hw m).
Definition with_tmr (m : machine) (t : timers) : machine :=
  mkMachine (upt m) (slw m) t (lts m) (enc m) (hw m).
Definition with_lts (m : machine) (l : lights) : machine :=
  mkMachine (upt m) (slw m) (tmr m) l (enc m) (hw m).
Definition with_enc (m : machine) (e : encoder) : machine :=
  mkMachine (upt m) (slw m) (tmr m) (lts m) e (hw m).
Definition with_hw (m : machine) (b : board) : machine :=
  mkMachine (upt m) (slw m) (tmr m) (lts m) (enc m) b.

(** ** Hardware primitives *)

Definition millis (m : machine) : Z := clock (hw m).

Definition set_clock (now : Z) (m : machine) : machine :=
  let b := hw m in
  with_hw m (mkBoard now (oled_on b) (oled_dim b) (oled_text b)
                     (eeprom b) (ee_writes b) (serial b) (beeps b)).

(** [delay(ms)]: the millisecond counter advances while the sketch waits. *)
Definition delay (ms : Z) (m : machine) : machine :=
  set_clock (wrap32 (millis m + ms)) m.

(** [Serial.println]: one more line on the serial monitor. *)
Definition Serial_println (line : string) (m : machine) : machine :=
  let b := hw m in
  with_hw m (mkBoard (clock b) (oled_on b) (oled_dim b) (oled_text b)
                     (eeprom b) (ee_writes b) (serial b ++ [line]) (beeps b)).

(** [display.ssd1306_command(SSD1306_DISPLAYON / SSD1306_DISPLAYOFF)]. *)
Definition oled_power (on : bool) (m : machine) : machine :=
  let b := hw m in
  with_hw m (mkBoard (clock b) on (oled_dim b) (oled_text b)
                     (eeprom b) (ee_writes b) (serial b) (beeps b)).

(** [display.dim(d)]. *)
Definition display_dim (d : bool) (m : machine) : machine :=
  let b := hw m in
  with_hw m (mkBoard (clock b) (oled_on b) d (oled_text b)
                     (eeprom b) (ee_writes b) (serial b) (beeps b)).

(** [display.clearDisplay(); ... display.print(t); display.display()]. *)
Definition display_show (t : string) (m : machine) : machine :=
  let b := hw m in
  with_hw m (mkBoard (clock b) (oled_on b) (oled_dim b) t
                     (eeprom b) (ee_writes b) (serial b) (beeps b)).

(** [Beep(n)]: [n] beeps of 20 ms, each followed by 160 ms of silence. *)
Definition Beep (n : Z) (m : machine) : machine :=
  let b := hw m in
  delay (Z.max 0 n * 180)
        (with_hw m (mkBoard (clock b) (oled_on b) (oled_dim b) (oled_text b)
                            (eeprom b) (ee_writes b) (serial b)
                            (beeps b + Z.max 0 n))).

(** ** Uptime accumulator *)

(** [unsigned long up_mi_max = 4294967294;  // limit of unsigned long -> millis()] *)
Definition up_mi_max : Z := 4294967294.

Definition millis_overflow_line (v : Z) : string :=
  ("1: millis overflow has happened -> " ++ dec v)%string.

Definition up_sec_overflow_line (v : Z) : string :=
  ("1: up_sec overflow has happened -> " ++ dec v)%string.

(** [update_up_sec_from_millis()]. *)
Definition update_up_sec_from_millis (m : machine) : machine :=
  let up_sec_old0 := up_sec (upt m) in
  let up_mi1 := millis m in
  let '(diff_mi1, m1) :=
    if up_mi_old (upt m) <=? up_mi1
    then (wrap32 (up_mi1 - up_mi_old (upt m)), m)
    else (wrap32 (wrap32 (up_mi_max - up_mi_old (upt m)) + up_mi1),
          Serial_println (millis_overflow_line up_mi1) m) in
  let diff_sec1 := diff_mi1 / 1000 in
  let up_sec1 := wrap32 (up_sec (upt m) + diff_sec1) in
  let m2 :=
    if up_sec1 <? up_sec_old0
    then Serial_println (up_sec_overflow_line up_sec1) m1
    else m1 in
  with_upt m2 (mkUptime up_mi1 up_mi1 diff_mi1 diff_sec1 up_sec1 up_sec1).

(** Start of [loop()]: resynchronise when [millis()] is seen to have wrapped. *)
Definition loop_resync (m : machine) : machine :=
  if millis m <? up_mi_old (upt m)
  then update_up_sec_from_millis
         (Serial_println "Loop: Update from millis overflow" m)
  else m.

(** A resync call made when the millisecond counter reads [raw_now]. *)
Definition resync_at (raw_now : Z) (m : machine) : machine :=
  update_up_sec_from_millis (set_clock raw_now m).

(** The (state before, state after) pairs of a sequence of resync calls. *)
Fixpoint resync_trace (readings : list Z) (m : machine)
  : list (machine * machine) :=
  match readings with
  | [] => []
  | r :: rest => (m, resync_at r m) :: resync_trace rest (resync_at r m)
  end.

(** The delta of the specification, over the integers:
    [raw_now - last_raw] without a wrap, [(RAW_MAX - last_raw) + raw_now]
    when the reading went backwards. *)
Definition bridging_delta (last_raw raw_now : Z) : Z :=
  if last_raw <=? raw_now then raw_now - last_raw
  else (up_mi_max - last_raw) + raw_now.

(** ** Display sleep and wake *)

Definition nl : string := String "010"%char EmptyString.

(** [reset_LEDTimeout()]: switch the LEDs on again. *)
Definition reset_LEDTimeout (m : machine) : machine :=
  let t := tmr m in
  display_dim false
    (with_tmr m (mkTimers 0 0 0 0 (last_move t) (last_outofrange t)
                          (last_dist t) (move_ps t))).

(** [sleepDisplay(&display)]: put the display into sleep mode. *)
Definition sleepDisplay (m : machine) : machine :=
  let m1 := oled_power false m in
  let s1 := slw m1 in
  let m2 := with_slw m1 (mkSleepwin 1 (dst_start s1) (dst_end s1) (dst_dur s1)
                                    (c_dst s1) (c_dwt s1) (c_uptime s1)) in
  let m3 := update_up_sec_from_millis m2 in
  let s3 := slw m3 in
  with_slw m3 (mkSleepwin (displaysleeping s3) (up_sec (upt m3)) (dst_end s3)
                          (dst_dur s3) (c_dst s3) (c_dwt s3) (c_uptime s3)).

(** [go_sleepDisplay()]: prepare display sleep mode. *)
Definition go_sleepDisplay (m : machine) : machine :=
  if displaysleeping (slw m) =? 0 then
    let s := slw m in
    let m1 := with_slw m (mkSleepwin 1 (dst_start s) (dst_end s) (dst_dur s)
                                     (c_dst s) (c_dwt s) (c_uptime s)) in
    let m2 := display_show ("Display" ++ nl ++ "--> Sleep")%string m1 in
    sleepDisplay (delay 1000 m2)
  else m.

(** [wakeDisplay(&display)]: wake up the display. *)
Definition wakeDisplay (m : machine) : machine :=
  let m1 := display_dim false m in
  let t1 := tmr m1 in
  let m2 := with_tmr m1 (mkTimers (leds_off t1) 0 (start_timeout t1)
                                  (timeout t1) (last_move t1)
                                  (last_outofrange t1) (last_dist t1)
                                  (move_ps t1)) in
  if displaysleeping (slw m2) =? 1 then
    let m3 := oled_power true m2 in
    let s3 := slw m3 in
    let m4 := with_slw m3 (mkSleepwin 0 (dst_start s3) (dst_end s3) (dst_dur s3)
                                      (c_dst s3) (c_dwt s3) (c_uptime s3)) in
    let m5 := update_up_sec_from_millis m4 in
    let s5 := slw m5 in
    let dst_end1 := up_sec (upt m5) in
    let '(dst_dur1, c_dst1) :=
      if dst_start s5 <? dst_end1
      then (wrap32 (dst_end1 - dst_start s5),
            wrap32 (c_dst s5 + wrap32 (dst_end1 - dst_start s5)))
      else (dst_dur s5, c_dst s5) in
    let m6 := with_slw m5 (mkSleepwin (displaysleeping s5) dst_end1 dst_end1
                                      dst_dur1 c_dst1 (c_dwt s5) (c_uptime s5)) in
    let t6 := tmr m6 in
    with_tmr m6 (mkTimers (leds_off t6) (dimmed t6) (start_timeout t6)
                          (timeout t6) (last_move t6) (millis m6)
                          (last_dist t6) (move_ps t6))
  else m2.

(** [display_uptime_info()]: show uptime, sleep time and wake time. *)
Definition display_uptime_info (m : machine) : machine :=
  let m1 := update_up_sec_from_millis m in
  let s1 := slw m1 in
  let c_uptime1 := up_sec (upt m1) in
  let c_dwt1 := wrap32 (c_uptime1 - c_dst s1) in
  let m2 := with_slw m1 (mkSleepwin (displaysleeping s1) (dst_start s1)
                                    (dst_end s1) (dst_dur s1) (c_dst s1)
                                    c_dwt1 c_uptime1) in
  let m3 := Serial_println
              ("Uptime: " ++ ConvertSectoDay c_uptime1
               ++ "  DispSlp: " ++ ConvertSectoDay (c_dst s1)
               ++ "  DispWake: " ++ ConvertSectoDay c_dwt1)%string m2 in
  display_show ("Uptime " ++ ConvertSectoDay c_uptime1
                ++ nl ++ "DispSlp" ++ ConvertSectoDay (c_dst s1)
                ++ nl ++ "DispWak" ++ ConvertSectoDay c_dwt1)%string m3.

(** The wake time a query of the uptime screen reports. *)
Definition reported_wake_time (m : machine) : Z :=
  c_dwt (slw (display_uptime_info m)).

(** ** EEPROM *)

(** [int E_address = 0;] *)
Definition E_address : Z := 0.

(** [EEPROM.read(address)]. *)
Definition EEPROM_read (address : Z) (m : machine) : Z := eeprom (hw m) address.

(** A physical write of one EEPROM cell. *)
Definition EEPROM_write (address value : Z) (m : machine) : machine :=
  let b := hw m in
  with_hw m (mkBoard (clock b) (oled_on b) (oled_dim b) (oled_text b)
                     (fun a => if a =? address then value else eeprom b a)
                     (ee_writes b ++ [(address, value)])
                     (serial b) (beeps b)).

(** [EEPROM.update(address, value)] of the Arduino EEPROM library: the value
    is converted to [uint8_t], and the cell is written only when it holds a
    different byte. *)
Definition EEPROM_update (address value : Z) (m : machine) : machine :=
  if EEPROM_read address m =? byte value then m
  else EEPROM_write address (byte value) m.

(** Number of physical EEPROM writes performed so far. *)
Definition physical_writes (m : machine) : nat := List.length (ee_writes (hw m)).

(** [String(i)] for an [int]. *)
Definition dec_int (i : Z) : string :=
  if i <? 0 then ("-" ++ dec (- i))%string else dec i.

(** ** Unit-dependent configuration ([#if defined UNIT_US / UNIT_EU / UNIT_TEST_EU]) *)

Record units : Type := mkUnits {
  light0s : Z;            (* warning lights turn on this far below red *)
  light1s_default : Z;    (* initial value of light1s *)
  light2s : Z;
  light3s : Z;
  range_limit : Z;
  range_min : Z;
  range_max : Z;
  range_diff : Z;
  LED_TIMEOUT : Z;
  DISPLAY_TIMEOUT : Z;
  unit : string
}.

Definition UNIT_US : units := mkUnits 6 12 12 12 157 7 60 2 15 15 "in".
Definition UNIT_EU : units := mkUnits 15 30 30 30 400 18 150 4 15 15 "cm".
Definition UNIT_TEST_EU : units := mkUnits 15 30 30 30 400 18 150 4 10 5 "cm".

Inductive tier : Type := WARNING | RED | YELLOW | GREEN | OFF.

Inductive DisplayPowerState : Type := AWAKE | DIMMED | ASLEEP.

Definition Qlt_bool (a b : Q) : bool := negb (Qle_bool b a).

(** Arduino's [abs(x)] macro, [((x)>0?(x):-(x))], at type [unsigned long]. *)
Definition abs_ulong (x : Z) : Z := if 0 <? x then x else wrap32 (- x).

(** Conversion of a [float] to [int]: the fraction is discarded. *)
Definition float_to_int (q : Q) : Z := int16 (Z.quot (Qnum q) (Zpos (Qden q))).

(** The display power state the flags encode. *)
Definition power_state (m : machine) : DisplayPowerState :=
  if displaysleeping (slw m) =? 1 then ASLEEP
  else if (leds_off (tmr m) =? 1) && (dimmed (tmr m) =? 1) then DIMMED
  else AWAKE.

Section Sketch.

Variable cfg : units.

(** State of the globals when [loop()] is first entered, for an EEPROM
    whose cell [E_address] holds [stored]: [setup()] copies it to
    [light1s] unless it is 255 (never written).  The millisecond counter
    is taken at 0. *)
Definition power_on (stored : Z) : machine :=
  mkMachine
    (mkUptime 0 0 0 0 0 0)
    (mkSleepwin 0 0 0 0 0 0 0)
    (mkTimers 0 0 0 0 0 0 0%Q 0%Q)
    (mkLights 0 0 0 0
              (if stored =? 255 then light1s_default cfg else stored)
              0 (light1s_default cfg) stored)
    (mkEncoder false false)
    (mkBoard 0 true false EmptyString
             (fun a => if a =? E_address then stored else 255) [] [] 0).

(** [loop()], "Prepare distance compare values" and "calculate WARNING
    light value". *)
Definition prepare_lights (m : machine) : machine :=
  let l := lts m in
  let light1a := int16 (counter l + light1s l) in
  let '(light1b, counterb) :=
    if light1a <? range_min cfg
    then (range_min cfg, int16 (range_min cfg - light1s l))
    else (light1a, counter l) in
  let '(light1c, counterc) :=
    if range_max cfg <? light1b
    then (range_max cfg, int16 (range_max cfg - light1s l))
    else (light1b, counterb) in
  let light2c := int16 (light1c + light2s cfg) in
  let light3c := int16 (light2c + light3s cfg) in
  let light0c :=
    if light1c <? warning_limit l
    then Z.quot light1c 2
    else int16 (light1c - light0s cfg) in
  with_lts m (mkLights light0c light1c light2c light3c (light1s l)
                       counterc (warning_limit l) (E_value l)).

(** [loop()], "Check the distance and light on the corresponding LEDs":
    the branch taken for a distance sample. *)
Definition led_tier (distance : Q) (m : machine) : tier :=
  let l := lts m in
  let on := leds_off (tmr m) =? 0 in
  if Qlt_bool distance (inject_Z (light0 l)) && on then WARNING
  else if Qlt_bool distance (inject_Z (light1 l)) && on then RED
  else if Qle_bool (inject_Z (light1 l)) distance
          && Qlt_bool distance (inject_Z (light2 l)) && on then YELLOW
  else if Qle_bool (inject_Z (light2 l)) distance
          && Qlt_bool distance (inject_Z (light3 l)) && on then GREEN
  else OFF.

(** The stationary counter: [timeout = abs(millis() - start_timeout) / 1000]. *)
Definition count_timeout (m : machine) : machine :=
  let t := tmr m in
  with_tmr m (mkTimers (leds_off t) (dimmed t) (start_timeout t)
                       (int16 (abs_ulong (wrap32 (millis m - start_timeout t))
                               / 1000))
                       (last_move t) (last_outofrange t)
                       (last_dist t) (move_ps t)).

(** [if (start_timeout == 0) { start_timeout = millis(); timeout = 0; }] *)
Definition start_timer_if_unset (m : machine) : machine :=
  let t := tmr m in
  if start_timeout t =? 0
  then with_tmr m (mkTimers (leds_off t) (dimmed t) (millis m) 0
                            (last_move t) (last_outofrange t)
                            (last_dist t) (move_ps t))
  else m.

(** The car has not moved (inner branch of the timeout handling). *)
Definition car_not_moved (m : machine) : machine :=
  let t := tmr m in
  let m1 :=
    if 998 <? timeout t
    then with_tmr m (mkTimers (leds_off t) (dimmed t)
                              (wrap32 (millis m - wrap32 (int16 ((LED_TIMEOUT cfg + 1) * 1000))))
                              (timeout t) (last_move t) (last_outofrange t)
                              (last_dist t) (move_ps t))
    else m in
  let m2 := count_timeout (start_timer_if_unset m1) in
  let t2 := tmr m2 in
  let m3 :=
    if LED_TIMEOUT cfg <? timeout t2
    then display_dim true
           (with_tmr m2 (mkTimers 1 1 (start_timeout t2) (timeout t2)
                                  (last_move t2) (last_outofrange t2)
                                  (last_dist t2) (move_ps t2)))
    else wakeDisplay
           (with_tmr m2 (mkTimers 0 (dimmed t2) (start_timeout t2) (timeout t2)
                                  (last_move t2) (last_outofrange t2)
                                  (last_dist t2) (move_ps t2))) in
  if LED_TIMEOUT cfg + DISPLAY_TIMEOUT cfg <? timeout (tmr m3)
  then go_sleepDisplay m3
  else m3.

(** [loop()], "TIMEOUT handling", for the distance sample of this pass. *)
Definition timeout_handling (distance : Q) (m : machine) : machine :=
  if Qlt_bool distance (inject_Z (light3 (lts m))) then
    if 500 <? wrap32 (millis m - last_move (tmr m)) then
      let t := tmr m in
      let move_ps1 := (Qabs (last_dist t - distance) * 2)%Q in
      let m1 := with_tmr m (mkTimers (leds_off t) (dimmed t) (start_timeout t)
                                     (timeout t) (millis m) (millis m)
                                     distance move_ps1) in
      if Qlt_bool move_ps1 (inject_Z (range_diff cfg))
      then car_not_moved m1
      else wakeDisplay (reset_LEDTimeout m1)
    else m
  else
    let t := tmr m in
    let m1 := display_dim true
                (with_tmr m (mkTimers (leds_off t) 1 (start_timeout t)
                                      (timeout t) (last_move t)
                                      (last_outofrange t) (last_dist t)
                                      (-1)%Q)) in
    if wrap32 (int16 (DISPLAY_TIMEOUT cfg * 1000))
         <? wrap32 (millis m1 - last_outofrange (tmr m1))
    then
      let t1 := tmr m1 in
      go_sleepDisplay
        (with_tmr m1 (mkTimers (leds_off t1) (dimmed t1) (start_timeout t1)
                               (timeout t1) (last_move t1) 0
                               (last_dist t1) (move_ps t1)))
    else count_timeout (start_timer_if_unset m1).

(** [loop()], "Check Button of Rotary Encoder", when the switch reads LOW.
    [distance1] is the distance sample of the previous pass.  (The serial
    line of this branch prints a float and is left out.) *)
Definition encoder_switch_pressed (distance1 : Q) (m : machine) : machine :=
  if displaysleeping (slw m) =? 1
  then wakeDisplay (reset_LEDTimeout m)
  else
    let l := lts m in
    let m1 := with_lts m (mkLights (light0 l) (light1 l) (light2 l) (light3 l)
                                   (light1s l)
                                   (float_to_int (distance1 - inject_Z (light1s l)))
                                   (warning_limit l) (E_value l)) in
    Beep 1 (reset_LEDTimeout m1).

(** The store taken when the display is awake: read the cell, write the
    stop distance when it differs. *)
Definition store_to_EEPROM (m : machine) : machine :=
  let m1 := Serial_println "Button SHORT -> Store EEPROM" (reset_LEDTimeout m) in
  let l := lts m1 in
  let E_value1 := EEPROM_read E_address m1 in
  let m2 := with_lts m1 (mkLights (light0 l) (light1 l) (light2 l) (light3 l)
                                  (light1s l) (counter l) (warning_limit l)
                                  E_value1) in
  let m3 := Serial_println ("Read EEPROM=" ++ dec_int E_value1
                            ++ ", New Value=" ++ dec_int (light1 l))%string m2 in
  let m4 :=
    if negb (E_value1 =? light1 l) then
      Beep 2
        (display_show ("Dist=" ++ dec_int (light1 l) ++ unit cfg ++ nl
                       ++ "--> EEPROM")%string
           (Serial_println ("Write to EEPROM (update mode) at address "
                            ++ dec_int E_address ++ "="
                            ++ dec_int (light1 l))%string
              (EEPROM_update E_address (light1 l) m3)))
    else
      Beep 5
        (display_show ("Dist=" ++ dec_int (light1 l) ++ unit cfg ++ nl
                       ++ "not saved")%string
           (Serial_println "EEPROM Update not necessary, same content" m3)) in
  reset_LEDTimeout (delay 5000 m4).

(** [loop()], "Check the STORE-TO-EEPROM Button", when the button reads LOW. *)
Definition store_button_pressed (m : machine) : machine :=
  if displaysleeping (slw m) =? 1
  then delay 2000 (wakeDisplay (reset_LEDTimeout m))
  else store_to_EEPROM m.


(** [update()]: interrupt routine of the rotary encoder; [clk] and [dt]
    are the levels read from the CLK and DT pins. *)
Definition update (clk dt : bool) (m : machine) : machine :=
  let m1 :=
    if negb (previousStateCLK (enc m)) && clk then
      let t := tmr m in
      let l := lts m in
      let m0 :=
        if displaysleeping (slw m) =? 1 then m
        else with_lts m (mkLights (light0 l) (light1 l) (light2 l) (light3 l)
                                  (light1s l)
                                  (int16 (if dt then counter l + 1
                                          else counter l - 1))
                                  (warning_limit l) (E_value l)) in
      with_tmr m0 (mkTimers 0 (dimmed t) 0 0 (last_move t)
                            (last_outofrange t) (last_dist t) (move_ps t))
    else m in
  with_enc m1 (mkEncoder clk clk).

End Sketch.

(** ** The specification's tier table *)

(** Tier selection as the specification words it, for stop distance [stop],
    band widths [yellow_band] and [green_band], warning limit [wlimit] and
    warning offset [woffset]. *)
Definition spec_warning_threshold (stop wlimit woffset : Z) : Z :=
  if stop <? wlimit then stop / 2 else stop - woffset.


(** One pass of [loop()] with no button pressed, up to the timeout
    handling: resync on a wrapped counter, thresholds, timeouts.  (The block
    that reads the CPU temperature every 5 s, between the thresholds and the
    timeout handling, touches none of the globals modelled here; the 20 ms
    it may take count as time between passes.) *)
Definition loop_pass (cfg : units) (distance : Q) (m : machine) : machine :=
  timeout_handling cfg distance (prepare_lights cfg (loop_resync m)).

(** A pass of [loop()] taken when the millisecond counter reads [now]. *)
Definition loop_pass_at (cfg : units) (now : Z) (distance : Q) (m : machine)
  : machine :=
  loop_pass cfg distance (set_clock now m).

(** ** Scenarios *)

(** The sketch's own test setting
    [up_sec = 4294967205;  // TEST: simulate nearly maximal runtime (90 sec.
    until overflow of up_sec)], EU units, EEPROM never written. *)
Definition test_near_max : machine :=
  with_upt (power_on UNIT_EU 255) (mkUptime 0 0 0 0 0 4294967205).

(** [test_near_max], 100 s after boot. *)
Definition near_max_100s : machine := set_clock 100000 test_near_max.

(** A resync in the last millisecond before the counter wraps; one
    millisecond later the counter reads 0. *)
Definition read_at_counter_max : machine :=
  resync_at 4294967295 (power_on UNIT_EU 255).
Definition wrapped_to_zero : machine := set_clock 0 read_at_counter_max.

(** A resync at 4294967290 ms, then the counter wraps and reads 4. *)
Definition wrap_example : machine :=
  set_clock 4 (resync_at 4294967290 (power_on UNIT_EU 255)).

(** From [test_near_max]: the display sleeps from 10 s to 80 s after boot,
    and the uptime screen is opened at 95 s, after [up_sec] has overflowed. *)
Definition sleep_exceeds_uptime : machine :=
  set_clock 95000
    (wakeDisplay (set_clock 80000 (sleepDisplay (set_clock 10000 test_near_max)))).

(** The display went to sleep 10 s after boot; it is now 80 s after boot. *)
Definition asleep_example : machine :=
  set_clock 80000 (sleepDisplay (set_clock 10000 (power_on UNIT_EU 255))).

(** EU units, first pass done: the stop distance is the default 30 cm and
    the EEPROM cell was never written. *)
Definition ready_to_store : machine :=
  prepare_lights UNIT_EU (power_on UNIT_EU 255).

(** A car drives to 50 cm and stays there.  Passes of [loop()] are taken
    1 s, 2 s (the stationary timer starts), 16.5 s, 18 s and 33 s after
    boot. *)
Definition parked_2s : machine :=
  loop_pass_at UNIT_EU 2000 50 (loop_pass_at UNIT_EU 1000 50 (power_on UNIT_EU 255)).
Definition parked_16s : machine := loop_pass_at UNIT_EU 16500 50 parked_2s.
Definition parked_18s : machine := loop_pass_at UNIT_EU 18000 50 parked_16s.
Definition parked_33s : machine := loop_pass_at UNIT_EU 33000 50 parked_18s.

(** The state a pass 16.5 s after boot finds, and the state a button press
    60 s after boot finds. *)
Definition before_pass_16s : machine := set_clock 16500 parked_2s.
Definition asleep_60s : machine := set_clock 60000 parked_33s.

(** The encoder switch is pressed 60 s after boot. *)
Definition woken_60s : machine := encoder_switch_pressed 50 asleep_60s.

(** ** Properties: predicates used in the statements *)

(** The serial lines printed between two states. *)
Definition printed (m m' : machine) (lines : list string) : Prop :=
  serial (hw m') = serial (hw m) ++ lines.

(** The accounting-overflow diagnostic was the last thing printed. *)
Definition overflow_reported (m m' : machine) : Prop :=
  exists pre,
    printed m m' (pre ++ [up_sec_overflow_line (up_sec (upt m'))]).

(** What one resync call guarantees about [up_sec]. *)
Definition resync_step_ok (m m' : machine) : Prop :=
  up_sec_old (upt m') = up_sec (upt m')
  /\ up_sec (upt m') = wrap32 (up_sec (upt m) + diff_sec (upt m'))
  /\ ((up_sec (upt m) <= up_sec (upt m') /\ ~ overflow_reported m m')
      \/ (up_sec (upt m') < up_sec (upt m) /\ overflow_reported m m')).

(** The unsigned-long globals of the accumulator hold 32-bit values. *)
Definition uptime_wf (m : machine) : Prop :=
  is_u32 (millis m) /\ is_u32 (up_mi_old (upt m)) /\ is_u32 (up_sec (upt m)).

(** Thresholds for which the [int] arithmetic of [prepare_lights] is exact. *)
Definition units_wf (cfg : units) : Prop :=
  0 < range_min cfg /\ range_min cfg <= range_max cfg /\ range_max cfg <= 10000
  /\ 0 <= light0s cfg <= 10000
  /\ 0 <= light2s cfg <= 10000 /\ 0 <= light3s cfg <= 10000.

(** ** READ-FROM-EEPROM button *)

(** The globals of [Get_Button()]. *)
Record read_button : Type := mkReadButton {
  butEEState : bool;        (* int, HIGH = true *)
  butEETimePressed : Z;     (* unsigned long *)
  butmode : Z               (* int: 0 not pressed, 1 short, 2 long *)
}.

(** [Get_Button()], for the pin level read ([pin], HIGH = true) and the
    value of [millis()] at the call. *)
Definition Get_Button (pin : bool) (now : Z) (b : read_button) : read_button :=
  if negb pin then
    if butEETimePressed b =? 0
    then mkReadButton pin now (butmode b)
    else if 3000 <? wrap32 (now - butEETimePressed b)
         then mkReadButton pin 0 2
         else mkReadButton pin (butEETimePressed b) (butmode b)
  else
    if 0 <? butEETimePressed b
    then mkReadButton pin 0
           (if 3000 <? wrap32 (now - butEETimePressed b) then 2
            else if wrap32 (now - butEETimePressed b) <? 1000 then 1
            else 0)
    else mkReadButton pin (butEETimePressed b) 0.

(** [Clear_Button()]: poll until [butmode] is 0.  Each element of [polls] is
    the pin level and the counter value of one poll; [None] when the list is
    used up with the loop still running. *)
Fixpoint Clear_Button (polls : list (bool * Z)) (b : read_button)
  : option read_button :=
  match polls with
  | [] => None
  | (pin, now) :: rest =>
      let b' := Get_Button pin now b in
      if butmode b' =? 0 then Some b' else Clear_Button rest b'
  end.

(** The button is seen pressed at [t0], held at the times [holds] and
    released at [t1]. *)
Definition click (t0 : Z) (holds : list Z) (t1 : Z) (b : read_button)
  : read_button :=
  Get_Button true t1
    (fold_left (fun b t => Get_Button false t b) holds (Get_Button false t0 b)).

(** [loop()], READ-FROM-EEPROM button, short press ([butmode == 1]). *)
Definition read_from_EEPROM (cfg : units) (m : machine) : machine :=
  let m1 := Serial_println "Button SHORT -> Read EEPROM" (reset_LEDTimeout m) in
  let l := lts m1 in
  let E_value1 := EEPROM_read E_address m1 in
  let m2 := Serial_println ("Old_value_light1=" ++ dec_int (light1 l)
                            ++ ", Read EEPROM=" ++ dec_int E_value1
                            ++ ", copied to light1s")%string m1 in
  let m3 := with_lts m2 (mkLights (light0 l) (light1 l) (light2 l) (light3 l)
                                  E_value1 0 (warning_limit l) E_value1) in
  let m4 := display_show ("Dist=" ++ dec_int E_value1 ++ unit cfg ++ nl
                          ++ "<-- EEPROM")%string m3 in
  reset_LEDTimeout (delay 5000 (Beep 1 m4)).

(** ** Manual wake events *)










(** A restart of the board (RESET button): the globals are initialised
    again, the EEPROM cell [E_address] keeps its contents. *)
Definition reboot (cfg : units) (m : machine) : machine :=
  power_on cfg (EEPROM_read E_address m).

(** [P] holds for the [n] integers from [z] on. *)
Fixpoint all_from (n : nat) (z : Z) (P : Z -> bool) : bool :=
  match n with
  | O => true
  | S k => P z && all_from k (z + 1) P
  end.

(** ** Sequences of time-accounting operations *)

(** The operations that touch the uptime and sleep counters. *)
Inductive time_op : Type :=
| OpResync | OpSleep | OpGoSleep | OpWake | OpInfo.

Definition apply_op (o : time_op) (m : machine) : machine :=
  match o with
  | OpResync => update_up_sec_from_millis m
  | OpSleep => sleepDisplay m
  | OpGoSleep => go_sleepDisplay m
  | OpWake => wakeDisplay m
  | OpInfo => display_uptime_info m
  end.

(** Operations performed at given counter readings, in order. *)
Fixpoint run_ops (evs : list (Z * time_op)) (m : machine) : machine :=
  match evs with
  | [] => m
  | (now, o) :: rest => run_ops rest (apply_op o (set_clock now m))
  end.

(** No operation of the run made [up_sec] smaller (no overflow of the
    seconds counter). *)
Fixpoint no_up_sec_overflow (evs : list (Z * time_op)) (m : machine) : Prop :=
  match evs with
  | [] => True
  | (now, o) :: rest =>
      up_sec (upt m) <= up_sec (upt (apply_op o (set_clock now m)))
      /\ no_up_sec_overflow rest (apply_op o (set_clock now m))
  end.

(** Sleep time is covered by the window start, which is covered by the
    uptime. *)
Definition sleep_inv (m : machine) : Prop :=
  0 <= c_dst (slw m) /\ c_dst (slw m) <= dst_start (slw m)
  /\ dst_start (slw m) <= up_sec (upt m) /\ up_sec (upt m) < two32.

(** Resyncs at the given readings, in order. *)
Definition resyncs (readings : list Z) (m : machine) : machine :=
  fold_left (fun m r => resync_at r m) readings m.

(** Readings that never go backwards, starting from [prev]. *)
Fixpoint ascending (prev : Z) (readings : list Z) : Prop :=
  match readings with
  | [] => True
  | r :: rest => prev <= r < two32 /\ ascending r rest
  end.

(** ** The original sketch (Ty Palowski) *)

Module Original.

(** [int const light1s = 12; light2s = 24; light3s = 48;] *)
Definition light1s : Z := 12.
Definition light2s : Z := 24.
Definition light3s : Z := 48.

Record state : Type := mkState {
  counter : Z;              (* int *)
  light1 : Z;               (* int *)
  light2 : Z;               (* int *)
  light3 : Z;               (* int *)
  distance1 : Z;            (* int *)
  currentStateCLK : bool;
  previousStateCLK : bool
}.

(** [loop()], "BUTTON": the encoder switch reads LOW. *)
Definition switch_pressed (s : state) : state :=
  mkState (int16 (distance1 s - light1s)) (light1 s) (light2 s) (light3 s)
          (distance1 s) (currentStateCLK s) (previousStateCLK s).

(** [loop()]: the thresholds for this pass and the sample [distance]
    (a [long]) stored in [distance1]. *)
Definition measure (distance : Z) (s : state) : state :=
  let l1 := int16 (counter s + light1s) in
  let l2 := int16 (l1 + light2s) in
  let l3 := int16 (l2 + light3s) in
  mkState (counter s) l1 l2 l3 (int16 distance)
          (currentStateCLK s) (previousStateCLK s).

(** [loop()]: the LED lit for the sample [distance]. *)
Definition led (distance : Z) (s : state) : tier :=
  if distance <? light1 s then RED
  else if (light1 s <? distance) && (distance <? light2 s) then YELLOW
  else if (light2 s <? distance) && (distance <? light3 s) then GREEN
  else OFF.

(** [update()]: interrupt routine of the rotary encoder. *)
Definition update (clk dt : bool) (s : state) : state :=
  let c :=
    if negb (previousStateCLK s) && clk
    then int16 (if dt then counter s - 1 else counter s + 1)
    else counter s in
  mkState c (light1 s) (light2 s) (light3 s) (distance1 s) clk clk.

End Original.

(** ** Single-precision arithmetic *)

(** A [float] is a binary32 number: a 24-bit significand times a power of
    two, the smallest unit being [2^-149].  The result of an operation is
    the exact result rounded to the nearest such number, ties to the even
    significand.  Floats are represented by the rationals they denote.
    (Results of [2^128] and more, which round to infinity, do not occur:
    the operands are 32-bit integers and small constants.) *)
Definition pow2 (e : Z) : Q := (2 ^ e)%Q.

(** The binary exponent of [x]: [2 ^ ilog2 x <= |x| < 2 ^ (ilog2 x + 1)]. *)
Definition ilog2 (x : Q) : Z :=
  let e0 := Z.log2 (Z.abs (Qnum x)) - Z.log2 (Zpos (Qden x)) in
  if Qle_bool (pow2 e0) (Qabs x) then e0 else e0 - 1.

(** Rounding to the nearest integer, ties to even. *)
Definition rne (x : Q) : Z :=
  let f := Qfloor x in
  match (x - inject_Z f ?= 1 # 2)%Q with
  | Lt => f
  | Gt => f + 1
  | Eq => if Z.even f then f else f + 1
  end.

(** Rounding to single precision. *)
Definition float32 (x : Q) : Q :=
  let q := Z.max (-149) (ilog2 x - 23) in
  (inject_Z (rne (x / pow2 q)) * pow2 q)%Q.

(** Conversion of an integer to [float], and the [float] operations [+]
    and [/]. *)
Definition float_of_int (n : Z) : Q := float32 (inject_Z n).
Definition fadd (a b : Q) : Q := float32 (a + b).
Definition fdiv (a b : Q) : Q := float32 (a / b).

(** ** Ultrasonic sensor *)

(** [int const ultrasonic_factor = 73.914;] (inches) and [= 29.1;]
    (centimetres): the initialiser is converted to [int]. *)
Definition ultrasonic_factor (cfg : units) : Z :=
  float_to_int (if String.eqb (unit cfg) "in" then 73914 # 1000 else 291 # 10).

(** One round of the measuring loop of [loop()], for the echo time
    [duration] (microseconds) that [pulseIn] returned: the value added to
    [dist_avg].
    [dist_m = duration / 2.0;  dist_m = dist_m / ultrasonic_factor;
     if (dist_m > range_limit || dist_m == 0) dist_m = range_limit;]
    Every assignment to the [float] [dist_m] rounds to single precision.
    (Halving is exact, so the value stored by the first line is the same
    whether [duration / 2.0] is evaluated as [float] or as a 64-bit
    [double].) *)
Definition read_sample (cfg : units) (duration : Z) : Q :=
  let dist_m := fdiv (float_of_int duration) 2 in
  let dist_m := fdiv dist_m (float_of_int (ultrasonic_factor cfg)) in
  if Qlt_bool (float_of_int (range_limit cfg)) dist_m || Qeq_bool dist_m 0
  then float_of_int (range_limit cfg)
  else dist_m.

(** [loop()], "Read the Ultrasonic sensor": the mean of three samples,
    [dist_avg = 0; dist_avg += dist_m; (three times)  dist_avg / j]. *)
Definition read_distance (cfg : units) (d0 d1 d2 : Z) : Q :=
  fdiv (fadd (fadd (fadd 0 (read_sample cfg d0)) (read_sample cfg d1))
             (read_sample cfg d2))
       (float_of_int 3).

(** ** Scenario: a car parked for more than 1000 seconds *)


(** ** Sequences of loop passes *)

(** Passes of [loop()] with no button pressed, each at a counter reading and
    with a distance sample. *)
Definition loop_passes (cfg : units) (evs : list (Z * Q)) (m : machine)
  : machine :=
  fold_left (fun m e => loop_pass_at cfg (fst e) (snd e) m) evs m.

(** A car parked at 50 cm until the display sleeps, then moved to 70 cm. *)
Definition parked_then_moved : list (Z * Q) :=
  [(1000, 50%Q); (2000, 50%Q); (16500, 50%Q); (18000, 50%Q); (33000, 50%Q);
   (60000, 70%Q)].

(** * Properties *)

Ltac Zify.zify_post_hook ::= Z.div_mod_to_equations.

Arguments wrap32 : simpl never.
Arguments int16 : simpl never.

(** ** Machine integers *)

Lemma wrap32_range z : is_u32 (wrap32 z).
Proof. unfold is_u32, wrap32, two32. apply Z.mod_pos_bound. lia. Qed.

Lemma wrap32_small z : is_u32 z -> wrap32 z = z.
Proof. unfold is_u32, wrap32. intros H. now apply Z.mod_small. Qed.

Lemma int16_small z : -32768 <= z < 32768 -> int16 z = z.
Proof. intros H. unfold int16, two16. rewrite Z.mod_small; lia. Qed.


(** ** Time formatting *)

(** The [int] conversions in [ConvertSectoDay] never change a value. *)
Lemma ConvertSectoDay_fields (n : Z) :
  is_u32 n ->
  ConvertSectoDay n =
  (fmt_5lu (n / 86400) ++ "d" ++ fmt_02d (n mod 86400 / 3600) ++ ":"
     ++ fmt_02d (n mod 86400 mod 3600 / 60) ++ ":"
     ++ fmt_02d (n mod 86400 mod 3600 mod 60))%string
  /\ n = 86400 * (n / 86400) + 3600 * (n mod 86400 / 3600)
         + 60 * (n mod 86400 mod 3600 / 60) + n mod 86400 mod 3600 mod 60
  /\ 0 <= n mod 86400 / 3600 < 24
  /\ 0 <= n mod 86400 mod 3600 / 60 < 60
  /\ 0 <= n mod 86400 mod 3600 mod 60 < 60.
Proof.
  intros Hn. unfold ConvertSectoDay.
  rewrite !int16_small by lia.
  repeat split; try reflexivity; lia.
Qed.

(** C9: [ConvertSectoDay] renders every 32-bit number of seconds [n] as
    [{days}d{HH}:{MM}:{SS}] with days = n/86400, hours = n%86400/3600,
    minutes = n%86400%3600/60 and seconds = n%86400%3600%60 (the days
    right-aligned in five characters, the others as two digits); for the
    largest value, 4294967295 seconds, this is "49710d06:28:15": 49710 days,
    6 hours, 28 minutes and 15 seconds. *)
Theorem ConvertSectoDay_max :
  (forall n : Z, is_u32 n ->
     ConvertSectoDay n =
     (fmt_5lu (n / 86400) ++ "d" ++ fmt_02d (n mod 86400 / 3600) ++ ":"
        ++ fmt_02d (n mod 86400 mod 3600 / 60) ++ ":"
        ++ fmt_02d (n mod 86400 mod 3600 mod 60))%string)
  /\ ConvertSectoDay 4294967295 = "49710d06:28:15"%string
  /\ 4294967295 / 86400 = 49710
  /\ 4294967295 mod 86400 / 3600 = 6
  /\ 4294967295 mod 86400 mod 3600 / 60 = 28
  /\ 4294967295 mod 86400 mod 3600 mod 60 = 15
  /\ ConvertSectoDay 4294967295 =
     (dec 49710 ++ "d" ++ fmt_02d 6 ++ ":" ++ fmt_02d 28 ++ ":" ++ fmt_02d 15)%string.
Proof.
  split.
  - intros n Hn. exact (proj1 (ConvertSectoDay_fields n Hn)).
  - repeat split; vm_compute; reflexivity.
Qed.

Lemma ConvertSectoDay_max_witness :
  is_u32 86399
  /\ ConvertSectoDay 86399 = "    0d23:59:59"%string.
Proof.
  assert (H : is_u32 86399)
    by (unfold is_u32; vm_compute; repeat split; discriminate).
  split; [exact H|].
  rewrite (proj1 ConvertSectoDay_max 86399 H). vm_compute. reflexivity.
Defined.

(** ** Uptime accumulator *)

(** The delta the code computes, in 32-bit arithmetic. *)
Lemma diff_mi_update (m : machine) :
  diff_mi (upt (update_up_sec_from_millis m)) =
  if up_mi_old (upt m) <=? millis m
  then wrap32 (millis m - up_mi_old (upt m))
  else wrap32 (wrap32 (up_mi_max - up_mi_old (upt m)) + millis m).
Proof.
  unfold update_up_sec_from_millis.
  destruct (up_mi_old (upt m) <=? millis m);
    match goal with |- context [if ?c then _ else _] => destruct c end;
    reflexivity.
Qed.

Lemma upt_update (m : machine) :
  let d := diff_mi (upt (update_up_sec_from_millis m)) in
  upt (update_up_sec_from_millis m) =
  mkUptime (millis m) (millis m) d (d / 1000)
           (wrap32 (up_sec (upt m) + d / 1000))
           (wrap32 (up_sec (upt m) + d / 1000)).
Proof.
  unfold update_up_sec_from_millis.
  destruct (up_mi_old (upt m) <=? millis m);
    match goal with |- context [if ?c then _ else _] => destruct c end;
    reflexivity.
Qed.

Lemma update_serial (m : machine) :
  let m' := update_up_sec_from_millis m in
  printed m m'
    ((if up_mi_old (upt m) <=? millis m then []
      else [millis_overflow_line (millis m)])
     ++ (if up_sec (upt m') <? up_sec (upt m)
         then [up_sec_overflow_line (up_sec (upt m'))] else [])).
Proof.
  intros m'. unfold printed. subst m'. rewrite (upt_update m). cbn [up_sec].
  rewrite diff_mi_update. unfold update_up_sec_from_millis.
  destruct (up_mi_old (upt m) <=? millis m);
    match goal with |- context [if ?c then _ else _] => destruct c end;
    cbn [hw serial with_upt with_hw Serial_println app];
    rewrite ?app_nil_r, <- ?app_assoc; reflexivity.
Qed.


Lemma up_sec_update_range (m : machine) :
  is_u32 (up_sec (upt (update_up_sec_from_millis m))).
Proof. rewrite (upt_update m). cbn. apply wrap32_range. Qed.

Lemma resync_step (m : machine) :
  resync_step_ok m (update_up_sec_from_millis m).
Proof.
  unfold resync_step_ok.
  pose proof (update_serial m) as Hs. cbv zeta in Hs.
  rewrite (upt_update m) in *. cbn [up_sec up_sec_old diff_sec] in *.
  set (u' := wrap32 _) in *.
  split; [reflexivity|]. split; [reflexivity|].
  destruct (u' <? up_sec (upt m)) eqn:E.
  - right. apply Z.ltb_lt in E. split; [exact E|].
    unfold overflow_reported. eexists. rewrite (upt_update m). cbn [up_sec].
    exact Hs.
  - left. apply Z.ltb_ge in E. split; [exact E|].
    intros [pre Hp]. rewrite (upt_update m) in Hp. cbn [up_sec] in Hp.
    fold u' in Hp. unfold printed in *. rewrite Hs in Hp.
    apply app_inv_head in Hp. rewrite app_nil_r in Hp.
    destruct (up_mi_old (upt m) <=? millis m).
    + destruct pre; discriminate.
    + destruct pre as [|x [|y pre]]; discriminate.
Qed.

(** C3: across any sequence of resync calls, every call leaves [up_sec] at
    least as large as before, or prints the up_sec-overflow diagnostic; in
    both cases the new value is the 32-bit sum (it is not clamped) and it is
    the baseline [up_sec_old] of the next call. *)
Theorem resync_never_decreases_silently (readings : list Z) (m : machine) :
  Forall (fun p => resync_step_ok (fst p) (snd p)) (resync_trace readings m).
Proof.
  revert m. induction readings as [|r rest IH]; intros m; cbn.
  - constructor.
  - constructor; [|apply IH]. cbn [fst snd]. unfold resync_at.
    pose proof (resync_step (set_clock r m)) as H.
    unfold resync_step_ok, overflow_reported, printed in *. exact H.
Qed.

(** C7: a second resync at the same counter reading adds zero seconds. *)
Theorem resync_idempotent (raw_now : Z) (m : machine) :
  let m1 := resync_at raw_now m in
  let m2 := resync_at raw_now m1 in
  diff_mi (upt m2) = 0 /\ diff_sec (upt m2) = 0
  /\ up_sec (upt m2) = up_sec (upt m1)
  /\ printed m1 m2 [].
Proof.
  intros m1 m2.
  assert (Hold : up_mi_old (upt m1) = raw_now).
  { unfold m1, resync_at. rewrite (upt_update (set_clock raw_now m)). reflexivity. }
  assert (Hmi : millis (set_clock raw_now m1) = raw_now) by reflexivity.
  assert (Hd : diff_mi (upt m2) = 0).
  { unfold m2, resync_at. rewrite diff_mi_update. cbn [set_clock upt with_hw].
    rewrite Hold, Hmi, Z.leb_refl, Z.sub_diag. reflexivity. }
  assert (Hu : up_sec (upt m2) = up_sec (upt m1)).
  { unfold m2, resync_at at 1. rewrite (upt_update (set_clock raw_now m1)).
    cbn [up_sec]. fold (resync_at raw_now m1). fold m2. rewrite Hd.
    cbn [set_clock upt with_hw]. change (0 / 1000) with 0.
    rewrite Z.add_0_r. apply wrap32_small. apply up_sec_update_range. }
  repeat split; try assumption.
  - unfold m2, resync_at at 1. rewrite (upt_update (set_clock raw_now m1)).
    cbn [diff_sec]. fold (resync_at raw_now m1). fold m2. now rewrite Hd.
  - pose proof (update_serial (set_clock raw_now m1)) as Hs. cbv zeta in Hs.
    fold (resync_at raw_now m1) in Hs. fold m2 in Hs.
    cbn [set_clock upt with_hw] in Hs. rewrite Hold, Hmi, Z.leb_refl in Hs.
    rewrite Hu, Z.ltb_irrefl in Hs. exact Hs.
Qed.

(** The resync of the specification's example: 4294967290, then 4. *)
Lemma resync_wrap_example :
  diff_mi (upt (update_up_sec_from_millis wrap_example)) = 8
  /\ diff_sec (upt (update_up_sec_from_millis wrap_example)) = 0.
Proof. split; vm_compute; reflexivity. Qed.

(** C1, as stated, fails on two inputs: when the 32-bit [up_sec] overflows
    (the increase is not [delta / 1000]), and when the previous reading is
    4294967295 and the counter then reads 0 (the stated delta is -1, the
    code adds 4294967 seconds). *)
Lemma resync_delta_counterexample :
  (bridging_delta (up_mi_old (upt near_max_100s)) (millis near_max_100s) / 1000
   = 100
   /\ up_sec (upt near_max_100s) = 4294967205
   /\ up_sec (upt (update_up_sec_from_millis near_max_100s)) = 9
   /\ up_sec (upt (update_up_sec_from_millis near_max_100s))
      <> up_sec (upt near_max_100s)
         + bridging_delta (up_mi_old (upt near_max_100s))
                          (millis near_max_100s) / 1000)
  /\
  (up_mi_old (upt wrapped_to_zero) = 4294967295
   /\ millis wrapped_to_zero = 0
   /\ bridging_delta (up_mi_old (upt wrapped_to_zero)) (millis wrapped_to_zero)
      = -1
   /\ diff_mi (upt (update_up_sec_from_millis wrapped_to_zero)) = 4294967295
   /\ up_sec (upt (update_up_sec_from_millis wrapped_to_zero))
      = up_sec (upt wrapped_to_zero) + 4294967
   /\ up_sec (upt (update_up_sec_from_millis wrapped_to_zero))
      <> up_sec (upt wrapped_to_zero)
         + bridging_delta (up_mi_old (upt wrapped_to_zero))
                          (millis wrapped_to_zero) / 1000).
Proof.
  split; repeat split; try (vm_compute; reflexivity);
    vm_compute; discriminate.
Qed.

(** C1 (amended): for 32-bit values, except a previous reading of 4294967295
    followed by a reading of 0, a resync computes the delta of the
    specification, drops the fraction of a second, and sets [up_sec] to the
    32-bit sum [up_sec + delta / 1000]; 4294967290 followed by 4 gives a
    delta of 8 ms. *)
Theorem resync_adds_floor_delta (m : machine) :
  uptime_wf m ->
  ~ (up_mi_old (upt m) = 4294967295 /\ millis m = 0) ->
  let m' := update_up_sec_from_millis m in
  let delta := bridging_delta (up_mi_old (upt m)) (millis m) in
  diff_mi (upt m') = delta
  /\ 0 <= delta < two32
  /\ diff_sec (upt m') = delta / 1000
  /\ 1000 * diff_sec (upt m') <= delta < 1000 * diff_sec (upt m') + 1000
  /\ up_sec (upt m') = wrap32 (up_sec (upt m) + delta / 1000)
  /\ (up_sec (upt m) + delta / 1000 < two32 ->
      up_sec (upt m') = up_sec (upt m) + delta / 1000)
  /\ (up_mi_old (upt m) = 4294967290 -> millis m = 4 -> diff_mi (upt m') = 8).
Proof.
  intros (Hc & Ho & Hs) Hmax m' delta.
  assert (Hd : diff_mi (upt m') = delta).
  { unfold m', delta, bridging_delta. rewrite diff_mi_update.
    unfold is_u32, two32, up_mi_max in *.
    destruct (up_mi_old (upt m) <=? millis m) eqn:E.
    - apply Z.leb_le in E. apply wrap32_small. unfold is_u32, two32. lia.
    - apply Z.leb_gt in E. unfold wrap32, two32. lia. }
  assert (Hr : 0 <= delta < two32).
  { rewrite <- Hd. unfold m'. rewrite diff_mi_update.
    destruct (_ <=? _); apply wrap32_range. }
  assert (Hds : diff_sec (upt m') = delta / 1000).
  { unfold m'. rewrite (upt_update m). cbn [diff_sec]. fold m'. now rewrite Hd. }
  assert (Hu : up_sec (upt m') = wrap32 (up_sec (upt m) + delta / 1000)).
  { unfold m'. rewrite (upt_update m). cbn [up_sec]. fold m'. now rewrite Hd. }
  split; [exact Hd|]. split; [exact Hr|]. split; [exact Hds|].
  split; [rewrite Hds; lia|]. split; [exact Hu|]. split.
  - intros Hlt. rewrite Hu. apply wrap32_small.
    unfold is_u32, two32 in *. lia.
  - intros H1 H2. rewrite Hd. unfold delta, bridging_delta.
    rewrite H1, H2. reflexivity.
Qed.

Lemma resync_adds_floor_delta_witness :
  uptime_wf wrap_example
  /\ ~ (up_mi_old (upt wrap_example) = 4294967295 /\ millis wrap_example = 0)
  /\ diff_mi (upt (update_up_sec_from_millis wrap_example)) = 8.
Proof.
  assert (H1 : uptime_wf wrap_example).
  { unfold uptime_wf, is_u32. vm_compute. repeat split; discriminate. }
  assert (H2 : ~ (up_mi_old (upt wrap_example) = 4294967295
                  /\ millis wrap_example = 0)).
  { intros [_ E]. vm_compute in E. discriminate E. }
  split; [exact H1|]. split; [exact H2|].
  apply (resync_adds_floor_delta wrap_example H1 H2); reflexivity.
Defined.

(** ** Sleep window *)

Arguments dec : simpl never.
Arguments ConvertSectoDay : simpl never.

Ltac explode m :=
  destruct m as [[? ? ? ? ? ?] [? ? ? ? ? ? ?] [? ? ? ? ? ? ? ?]
                 [? ? ? ? ? ? ? ?] [? ?] [? ? ? ? ? ? ? ?]].

(** Evaluate the program text, leaving arithmetic and text symbolic. *)
Ltac run :=
  cbv -[wrap32 int16 byte Z.add Z.sub Z.mul Z.div Z.modulo Z.quot Z.opp
        Z.ltb Z.leb Z.eqb Z.max Z.lt Z.le up_mi_max two32 is_u32
        dec dec_int ConvertSectoDay app String.append nl
        millis_overflow_line up_sec_overflow_line
        Qlt_bool Qle_bool Qabs Qminus Qmult Qplus inject_Z List.length] in *.

(** Case analysis on the tests of the program, innermost first. *)
Ltac split_ifs :=
  repeat (match goal with
          | |- context [if ?c then _ else _] =>
              lazymatch c with
              | context [if _ then _ else _] => fail
              | _ => destruct c eqn:?
              end
          end; run).

Ltac ztests :=
  repeat match goal with
         | H : (_ <? _) = true |- _ => apply Z.ltb_lt in H
         | H : (_ <? _) = false |- _ => apply Z.ltb_ge in H
         | H : (_ <=? _) = true |- _ => apply Z.leb_le in H
         | H : (_ <=? _) = false |- _ => apply Z.leb_gt in H
         | H : (_ =? _) = true |- _ => apply Z.eqb_eq in H
         | H : (_ =? _) = false |- _ => apply Z.eqb_neq in H
         end.

(** C4: waking a sleeping display stamps [dst_end] with the resynced uptime,
    adds [dst_end - dst_start] to [c_dst] only when [dst_end > dst_start],
    and restarts the window at [dst_end]; powering the display down stamps
    [dst_start] with the resynced uptime. *)
Theorem sleep_window_bookkeeping (m : machine) :
  is_u32 (dst_start (slw m)) ->
  let now := up_sec (upt (update_up_sec_from_millis m)) in
  (displaysleeping (slw m) = 1 ->
   let w := wakeDisplay m in
   up_sec (upt w) = now
   /\ dst_end (slw w) = now
   /\ dst_start (slw w) = now
   /\ displaysleeping (slw w) = 0 /\ oled_on (hw w) = true
   /\ (dst_start (slw m) < now ->
       dst_dur (slw w) = now - dst_start (slw m)
       /\ c_dst (slw w) = wrap32 (c_dst (slw m) + (now - dst_start (slw m))))
   /\ (now <= dst_start (slw m) -> c_dst (slw w) = c_dst (slw m)))
  /\ (let z := sleepDisplay m in
      up_sec (upt z) = now
      /\ dst_start (slw z) = now
      /\ displaysleeping (slw z) = 1 /\ oled_on (hw z) = false)
  /\ (displaysleeping (slw m) = 0 ->
      let g := go_sleepDisplay m in
      up_sec (upt g) = up_sec (upt (update_up_sec_from_millis (delay 1000 m)))
      /\ dst_start (slw g) = up_sec (upt g)
      /\ displaysleeping (slw g) = 1 /\ oled_on (hw g) = false).
Proof.
  intros Hd now. subst now. explode m. run. split; [|split].
  - intros ->. change (1 =? 1) with true. run.
    split_ifs; ztests; repeat split; intros; try reflexivity; try lia;
      rewrite (wrap32_small (_ - _)); try reflexivity;
      match goal with |- is_u32 (wrap32 ?a - _) =>
        pose proof (wrap32_range a) end; unfold is_u32 in *; lia.
  - split_ifs; repeat split; reflexivity.
  - intros ->. change (0 =? 0) with true. run.
    split_ifs; repeat split; reflexivity.
Qed.

Lemma sleep_window_bookkeeping_witness :
  is_u32 (dst_start (slw asleep_example))
  /\ displaysleeping (slw asleep_example) = 1
  /\ dst_start (slw asleep_example) = 10
  /\ dst_end (slw (wakeDisplay asleep_example)) = 80
  /\ c_dst (slw (wakeDisplay asleep_example)) = 70.
Proof.
  assert (H0 : is_u32 (dst_start (slw asleep_example))).
  { unfold is_u32. vm_compute. repeat split; discriminate. }
  assert (H1 : displaysleeping (slw asleep_example) = 1) by reflexivity.
  pose proof (proj1 (sleep_window_bookkeeping asleep_example H0) H1) as H.
  cbv zeta in H. destruct H as (_ & He & _ & _ & _ & Hadd & _).
  split; [exact H0|]. split; [exact H1|]. split; [reflexivity|].
  split; [rewrite He; reflexivity|].
  rewrite (proj2 (Hadd ltac:(vm_compute; reflexivity))). reflexivity.
Defined.

(** C10: a sleep request while the display sleeps changes nothing, and a
    wake request while it is not sleeping only clears the dimming; the sleep
    window and its counters are untouched. *)
Theorem redundant_requests_keep_window (m : machine) :
  (displaysleeping (slw m) = 1 -> go_sleepDisplay m = m)
  /\ (displaysleeping (slw m) = 0 ->
      let w := wakeDisplay m in
      slw w = slw m
      /\ c_dst (slw w) = c_dst (slw m)
      /\ dst_start (slw w) = dst_start (slw m)
      /\ dst_end (slw w) = dst_end (slw m)
      /\ displaysleeping (slw w) = 0
      /\ upt w = upt m /\ lts w = lts m /\ enc w = enc m
      /\ tmr w = mkTimers (leds_off (tmr m)) 0 (start_timeout (tmr m))
                          (timeout (tmr m)) (last_move (tmr m))
                          (last_outofrange (tmr m)) (last_dist (tmr m))
                          (move_ps (tmr m))
      /\ hw w = mkBoard (clock (hw m)) (oled_on (hw m)) false
                        (oled_text (hw m)) (eeprom (hw m))
                        (ee_writes (hw m)) (serial (hw m)) (beeps (hw m))).
Proof.
  split.
  - intros H. unfold go_sleepDisplay. rewrite H. reflexivity.
  - intros H. unfold wakeDisplay. explode m. run. subst.
    change (0 =? 1) with false. run. repeat split; reflexivity.
Qed.

Lemma redundant_requests_keep_window_witness :
  (displaysleeping (slw asleep_example) = 1
   /\ go_sleepDisplay asleep_example = asleep_example)
  /\ (displaysleeping (slw (power_on UNIT_EU 255)) = 0
      /\ slw (wakeDisplay (power_on UNIT_EU 255)) = slw (power_on UNIT_EU 255)).
Proof.
  split.
  - split; [reflexivity|].
    apply (proj1 (redundant_requests_keep_window asleep_example)). reflexivity.
  - split; [reflexivity|].
    apply (proj2 (redundant_requests_keep_window (power_on UNIT_EU 255))).
    reflexivity.
Defined.

(** ** Wake time on the uptime screen *)

(** C2, as stated, fails: with 70 s of sleep time and an uptime that has
    overflowed to 4 s, the uptime screen reports the wrapped unsigned
    difference 4294967230 s, printed as 49710d06:27:10. *)
Lemma wake_time_counterexample :
  c_uptime (slw (display_uptime_info sleep_exceeds_uptime)) = 4
  /\ c_dst (slw (display_uptime_info sleep_exceeds_uptime)) = 70
  /\ c_uptime (slw (display_uptime_info sleep_exceeds_uptime))
     < c_dst (slw (display_uptime_info sleep_exceeds_uptime))
  /\ reported_wake_time sleep_exceeds_uptime = 4294967230
  /\ reported_wake_time sleep_exceeds_uptime = wrap32 (4 - 70)
  /\ oled_text (hw (display_uptime_info sleep_exceeds_uptime)) =
     ("Uptime     0d00:00:04" ++ nl ++ "DispSlp    0d00:01:10" ++ nl
      ++ "DispWak49710d06:27:10")%string.
Proof. repeat split; vm_compute; reflexivity. Qed.

(** C2 (amended): the wake time on the uptime screen is the 32-bit unsigned
    difference [c_uptime - c_dst]; when [c_dst] exceeds [c_uptime] that is
    [2^32 - (c_dst - c_uptime)], and no sentinel or clamp is applied. *)
Theorem wake_time_is_wrapped_difference (m : machine) :
  is_u32 (c_dst (slw m)) ->
  let m' := display_uptime_info m in
  c_uptime (slw m') = up_sec (upt (update_up_sec_from_millis m))
  /\ c_dst (slw m') = c_dst (slw m)
  /\ reported_wake_time m = c_dwt (slw m')
  /\ c_dwt (slw m') = wrap32 (c_uptime (slw m') - c_dst (slw m'))
  /\ (c_uptime (slw m') < c_dst (slw m') ->
      c_dwt (slw m') = two32 - (c_dst (slw m') - c_uptime (slw m'))
      /\ two32 - c_dst (slw m') <= c_dwt (slw m'))
  /\ (c_dst (slw m') <= c_uptime (slw m') ->
      c_dwt (slw m') = c_uptime (slw m') - c_dst (slw m'))
  /\ oled_text (hw m') =
     ("Uptime " ++ ConvertSectoDay (c_uptime (slw m'))
      ++ nl ++ "DispSlp" ++ ConvertSectoDay (c_dst (slw m'))
      ++ nl ++ "DispWak" ++ ConvertSectoDay (c_dwt (slw m')))%string.
Proof.
  intros Hd. unfold reported_wake_time. explode m. run.
  split_ifs; (repeat split; try reflexivity; intros;
    match goal with
    | |- context [wrap32 (wrap32 ?a - ?b)] =>
        pose proof (wrap32_range a); unfold wrap32 at 1
    | _ => idtac
    end; unfold is_u32, two32 in *; try lia).
Qed.

Lemma wake_time_is_wrapped_difference_witness :
  is_u32 (c_dst (slw sleep_exceeds_uptime))
  /\ c_dwt (slw (display_uptime_info sleep_exceeds_uptime))
     = wrap32 (c_uptime (slw (display_uptime_info sleep_exceeds_uptime))
               - c_dst (slw (display_uptime_info sleep_exceeds_uptime))).
Proof.
  assert (H0 : is_u32 (c_dst (slw sleep_exceeds_uptime))).
  { unfold is_u32. vm_compute. repeat split; discriminate. }
  split; [exact H0|].
  pose proof (wake_time_is_wrapped_difference sleep_exceeds_uptime H0) as H.
  cbv zeta in H. exact (proj1 (proj2 (proj2 (proj2 H)))).
Defined.

(** ** EEPROM store *)

(** What one store does to the EEPROM, the sleep flags and the stop
    distance. *)
Lemma store_to_EEPROM_effect (cfg : units) (m : machine) :
  0 <= light1 (lts m) < 256 ->
  let m1 := store_to_EEPROM cfg m in
  slw m1 = slw m /\ light1 (lts m1) = light1 (lts m)
  /\ (eeprom (hw m) E_address = light1 (lts m) ->
      eeprom (hw m1) = eeprom (hw m) /\ ee_writes (hw m1) = ee_writes (hw m))
  /\ (eeprom (hw m) E_address <> light1 (lts m) ->
      eeprom (hw m1) E_address = light1 (lts m)
      /\ ee_writes (hw m1)
         = ee_writes (hw m) ++ [(E_address, light1 (lts m))]).
Proof.
  intros Hl. explode m. run.
  assert (Hb : byte light5 = light5) by (unfold byte; apply Z.mod_small; lia).
  rewrite !Hb.
  destruct (eeprom0 0 =? light5) eqn:E; run; ztests;
    repeat split; intros; try reflexivity; try congruence.
Qed.

(** C8: with the display awake, the store button writes the EEPROM cell if
    and only if the stop distance differs from the stored byte; a second
    press with the same value never writes, so two presses of a new value
    make exactly one physical write; an equal value leaves the cell
    untouched. *)
Theorem store_writes_only_on_change (cfg : units) (m : machine) :
  displaysleeping (slw m) <> 1 ->
  0 <= light1 (lts m) < 256 ->
  let stored := EEPROM_read E_address m in
  let m1 := store_button_pressed cfg m in
  let m2 := store_button_pressed cfg m1 in
  (physical_writes m1 = S (physical_writes m) <-> light1 (lts m) <> stored)
  /\ (light1 (lts m) <> stored ->
      ee_writes (hw m1) = ee_writes (hw m) ++ [(E_address, light1 (lts m))]
      /\ EEPROM_read E_address m1 = light1 (lts m)
      /\ physical_writes m2 = S (physical_writes m))
  /\ (light1 (lts m) = stored ->
      ee_writes (hw m1) = ee_writes (hw m)
      /\ eeprom (hw m1) = eeprom (hw m)
      /\ physical_writes m2 = physical_writes m)
  /\ physical_writes m2 = physical_writes m1
  /\ light1 (lts m1) = light1 (lts m).
Proof.
  intros Hs Hl stored m1 m2.
  apply Z.eqb_neq in Hs.
  assert (E1 : m1 = store_to_EEPROM cfg m).
  { unfold m1, store_button_pressed. now rewrite Hs. }
  destruct (store_to_EEPROM_effect cfg m Hl) as (S1 & L1 & Same1 & Diff1).
  rewrite <- E1 in S1, L1, Same1, Diff1.
  assert (E2 : m2 = store_to_EEPROM cfg m1).
  { unfold m2, store_button_pressed. now rewrite S1, Hs. }
  assert (Hl1 : 0 <= light1 (lts m1) < 256) by now rewrite L1.
  destruct (store_to_EEPROM_effect cfg m1 Hl1) as (_ & _ & Same2 & _).
  rewrite <- E2, L1 in Same2.
  unfold physical_writes, EEPROM_read in *. fold stored in Same1, Diff1.
  destruct (Z.eq_dec stored (light1 (lts m))) as [Heq | Hne].
  - destruct (Same1 Heq) as [Ee Ew].
    assert (Hw2 : ee_writes (hw m2) = ee_writes (hw m1)).
    { apply Same2. rewrite Ee. exact Heq. }
    rewrite Hw2, Ew. repeat split; intros; try congruence; try lia.
  - destruct (Diff1 Hne) as [Ee Ew].
    assert (Hw2 : ee_writes (hw m2) = ee_writes (hw m1)) by now apply Same2.
    rewrite Hw2, Ew, !length_app. cbn [List.length].
    repeat split; intros; try congruence; try lia.
Qed.

Lemma store_writes_only_on_change_witness :
  displaysleeping (slw ready_to_store) <> 1
  /\ 0 <= light1 (lts ready_to_store) < 256
  /\ physical_writes
       (store_button_pressed UNIT_EU (store_button_pressed UNIT_EU ready_to_store))
     = S (physical_writes ready_to_store).
Proof.
  assert (H0 : displaysleeping (slw ready_to_store) <> 1).
  { vm_compute. discriminate. }
  assert (H1 : 0 <= light1 (lts ready_to_store) < 256).
  { vm_compute. repeat split; discriminate. }
  split; [exact H0|]. split; [exact H1|].
  pose proof (store_writes_only_on_change UNIT_EU ready_to_store H0 H1) as H.
  cbv zeta in H. destruct H as (_ & Hd & _).
  apply Hd. vm_compute. discriminate.
Defined.

(** ** Thresholds and LED selection *)

(** The thresholds [prepare_lights] computes. *)
Lemma prepare_lights_values (cfg : units) (m : machine) :
  units_wf cfg ->
  let l := lts (prepare_lights cfg m) in
  range_min cfg <= light1 l <= range_max cfg
  /\ light2 l = light1 l + light2s cfg
  /\ light3 l = light1 l + light2s cfg + light3s cfg
  /\ light0 l = spec_warning_threshold (light1 l) (warning_limit (lts m))
                                       (light0s cfg)
  /\ warning_limit l = warning_limit (lts m)
  /\ tmr (prepare_lights cfg m) = tmr m.
Proof.
  intros Hw. explode m. destruct cfg. unfold units_wf in Hw. run.
  generalize (int16 (counter0 + light1s0)). intros a.
  split_ifs; ztests;
    rewrite ?(int16_small (_ + _)), ?(int16_small (_ - _)) by lia;
    rewrite ?(int16_small (_ + _)) by lia;
    rewrite ?Z.quot_div_nonneg by lia;
    repeat split; try reflexivity; try lia.
Qed.

(** After [prepare_lights] the stop distance fits a byte. *)
Lemma prepare_lights_light1_byte (cfg : units) (m : machine) :
  units_wf cfg -> range_max cfg < 256 ->
  0 <= light1 (lts (prepare_lights cfg m)) < 256.
Proof.
  intros Hw Hm. destruct (prepare_lights_values cfg m Hw) as (Hr & _).
  unfold units_wf in Hw. lia.
Qed.




(** ** Display power states *)

(** Waking a sleeping display, field by field. *)
Lemma wakeDisplay_asleep (m : machine) :
  displaysleeping (slw m) = 1 ->
  let u := update_up_sec_from_millis m in
  let now := up_sec (upt u) in
  let s := slw m in
  let t := tmr m in
  wakeDisplay m =
  mkMachine
    (upt u)
    (mkSleepwin 0 now now
       (if dst_start s <? now then wrap32 (now - dst_start s) else dst_dur s)
       (if dst_start s <? now
        then wrap32 (c_dst s + wrap32 (now - dst_start s)) else c_dst s)
       (c_dwt s) (c_uptime s))
    (mkTimers (leds_off t) 0 (start_timeout t) (timeout t) (last_move t)
              (millis m) (last_dist t) (move_ps t))
    (lts m) (enc m)
    (mkBoard (clock (hw m)) true false (oled_text (hw m)) (eeprom (hw m))
             (ee_writes (hw m)) (serial (hw u)) (beeps (hw m))).
Proof.
  intros Hs. explode m. run. subst. change (1 =? 1) with true. run.
  split_ifs; reflexivity.
Qed.

(** Waking a display that is not asleep only undims it. *)
Lemma wakeDisplay_awake (m : machine) :
  displaysleeping (slw m) <> 1 ->
  let t := tmr m in
  wakeDisplay m =
  mkMachine (upt m) (slw m)
    (mkTimers (leds_off t) 0 (start_timeout t) (timeout t) (last_move t)
              (last_outofrange t) (last_dist t) (move_ps t))
    (lts m) (enc m)
    (mkBoard (clock (hw m)) (oled_on (hw m)) false (oled_text (hw m))
             (eeprom (hw m)) (ee_writes (hw m)) (serial (hw m))
             (beeps (hw m))).
Proof.
  intros Hs. apply Z.eqb_neq in Hs. explode m. run. rewrite Hs. reflexivity.
Qed.

(** Sending an awake display to sleep, field by field. *)
Lemma go_sleepDisplay_awake (m : machine) :
  displaysleeping (slw m) = 0 ->
  let u := update_up_sec_from_millis (delay 1000 m) in
  let s := slw m in
  go_sleepDisplay m =
  mkMachine
    (upt u)
    (mkSleepwin 1 (up_sec (upt u)) (dst_end s) (dst_dur s) (c_dst s)
                (c_dwt s) (c_uptime s))
    (tmr m) (lts m) (enc m)
    (mkBoard (wrap32 (millis m + 1000)) false (oled_dim (hw m))
             ("Display" ++ nl ++ "--> Sleep")%string (eeprom (hw m))
             (ee_writes (hw m)) (serial (hw u)) (beeps (hw m))).
Proof.
  intros Hs. explode m. run. subst. change (0 =? 0) with true. run.
  split_ifs; reflexivity.
Qed.

(** Simplify projections of the straight-line state updates. *)
Ltac simp_state :=
  unfold count_timeout, reset_LEDTimeout, Beep, delay, display_show,
         display_dim, oled_power, Serial_println, set_clock, millis,
         with_upt, with_slw, with_tmr, with_lts, with_enc, with_hw in *;
  cbn [upt slw tmr lts enc hw
       up_mi up_mi_old diff_mi diff_sec up_sec_old up_sec
       displaysleeping dst_start dst_end dst_dur c_dst c_dwt c_uptime
       leds_off dimmed start_timeout timeout last_move last_outofrange
       last_dist move_ps
       light0 light1 light2 light3 light1s counter warning_limit E_value
       currentStateCLK previousStateCLK
       clock oled_on oled_dim oled_text eeprom ee_writes serial beeps] in *.




(** Without a wrap of the counter, a resync adds the whole seconds since
    the previous resync. *)
Lemma up_sec_update_forward (m : machine) :
  uptime_wf m -> up_mi_old (upt m) <= millis m ->
  up_sec (upt (update_up_sec_from_millis m))
  = wrap32 (up_sec (upt m) + (millis m - up_mi_old (upt m)) / 1000).
Proof.
  intros (Hc & Ho & _) Hle. rewrite (upt_update m). cbn [up_sec].
  rewrite diff_mi_update.
  replace (up_mi_old (upt m) <=? millis m) with true
    by (symmetry; now apply Z.leb_le).
  rewrite (wrap32_small (millis m - up_mi_old (upt m))); [reflexivity|].
  unfold is_u32, two32 in *. lia.
Qed.







(** While the button stays pressed for at most 3 s the latched press is
    kept. *)
Lemma hold_keeps_press (t0 mode : Z) (holds : list Z) :
  t0 <> 0 ->
  Forall (fun t => wrap32 (t - t0) <= 3000) holds ->
  fold_left (fun b t => Get_Button false t b) holds
            (mkReadButton false t0 mode)
  = mkReadButton false t0 mode.
Proof.
  intros H0 Hall. induction Hall as [|t ts Ht _ IH]; [reflexivity|].
  cbn [fold_left]. unfold Get_Button at 2. cbn [negb butEETimePressed butmode].
  apply Z.eqb_neq in H0. rewrite H0.
  replace (3000 <? wrap32 (t - t0)) with false
    by (symmetry; apply Z.ltb_ge; exact Ht).
  exact IH.
Qed.










(** * Further properties of the sketch *)

(** ** Time formatting *)

Lemma all_from_spec (n : nat) (z : Z) (P : Z -> bool) :
  all_from n z P = true -> forall v, z <= v < z + Z.of_nat n -> P v = true.
Proof.
  revert z. induction n as [|k IH]; cbn [all_from]; intros z H v Hv; [lia|].
  apply andb_true_iff in H as [H1 H2].
  destruct (Z.eq_dec v z) as [-> | Hne]; [exact H1|].
  apply (IH (z + 1)); [exact H2 | lia].
Qed.

Lemma string_length_append (a b : string) :
  String.length (a ++ b) = (String.length a + String.length b)%nat.
Proof. induction a as [|c a IH]; cbn; [reflexivity | now rewrite IH]. Qed.

Lemma fmt_5lu_length (d : Z) :
  0 <= d <= 49710 -> String.length (fmt_5lu d) = 5%nat.
Proof.
  intros H. apply Nat.eqb_eq.
  apply (all_from_spec (Z.to_nat 49711) 0
           (fun d => Nat.eqb (String.length (fmt_5lu d)) 5));
    [vm_compute; reflexivity | rewrite Z2Nat.id; lia].
Qed.

Lemma fmt_02d_length (v : Z) :
  0 <= v < 60 -> String.length (fmt_02d v) = 2%nat.
Proof.
  intros H. apply Nat.eqb_eq.
  apply (all_from_spec 60 0 (fun d => Nat.eqb (String.length (fmt_02d d)) 2));
    [vm_compute; reflexivity | cbn; lia].
Qed.

(** The text for any 32-bit number of seconds has exactly 14 characters, so
    with its terminating zero it fits the 30 bytes of [date_buffer]. *)
Theorem ConvertSectoDay_length (n : Z) :
  is_u32 n ->
  String.length (ConvertSectoDay n) = 14%nat
  /\ (String.length (ConvertSectoDay n) + 1 <= 30)%nat.
Proof.
  intros Hn. destruct (ConvertSectoDay_fields n Hn) as (E & _ & Hh & Hm & Hs).
  assert (L : String.length (ConvertSectoDay n) = 14%nat).
  { rewrite E. rewrite !string_length_append.
    rewrite fmt_5lu_length by (unfold is_u32, two32 in Hn; lia).
    rewrite !fmt_02d_length by lia. reflexivity. }
  split; [exact L | rewrite L; repeat constructor].
Qed.

Lemma ConvertSectoDay_length_witness :
  is_u32 4294967 /\ String.length (ConvertSectoDay 4294967) = 14%nat.
Proof.
  assert (H : is_u32 4294967)
    by (unfold is_u32; vm_compute; repeat split; discriminate).
  split; [exact H | exact (proj1 (ConvertSectoDay_length 4294967 H))].
Defined.

(** The day, hour, minute and second fields printed for any 32-bit number
    of seconds add up to that number, with the hours below 24 and the
    minutes and seconds below 60: the [int] conversions in
    [ConvertSectoDay] never garble a field. *)
Theorem ConvertSectoDay_decomposes (n : Z) :
  is_u32 n ->
  exists d h mi s,
    ConvertSectoDay n
    = (fmt_5lu d ++ "d" ++ fmt_02d h ++ ":" ++ fmt_02d mi ++ ":"
         ++ fmt_02d s)%string
    /\ n = 86400 * d + 3600 * h + 60 * mi + s
    /\ 0 <= d <= 49710 /\ 0 <= h < 24 /\ 0 <= mi < 60 /\ 0 <= s < 60.
Proof.
  intros Hn. destruct (ConvertSectoDay_fields n Hn) as (E & S & Hh & Hm & Hs).
  exists (n / 86400), (n mod 86400 / 3600), (n mod 86400 mod 3600 / 60),
         (n mod 86400 mod 3600 mod 60).
  unfold is_u32, two32 in Hn. repeat split; try assumption; lia.
Qed.

Lemma ConvertSectoDay_decomposes_witness :
  is_u32 4294967
  /\ exists d h mi s,
       ConvertSectoDay 4294967
       = (fmt_5lu d ++ "d" ++ fmt_02d h ++ ":" ++ fmt_02d mi ++ ":"
            ++ fmt_02d s)%string
       /\ 4294967 = 86400 * d + 3600 * h + 60 * mi + s
       /\ 0 <= d <= 49710 /\ 0 <= h < 24 /\ 0 <= mi < 60 /\ 0 <= s < 60.
Proof.
  assert (H : is_u32 4294967)
    by (unfold is_u32; vm_compute; repeat split; discriminate).
  split; [exact H | exact (ConvertSectoDay_decomposes 4294967 H)].
Defined.

(** ** Uptime accumulator *)

Lemma resync_at_forward (r : Z) (m : machine) :
  is_u32 (up_mi_old (upt m)) -> is_u32 (up_sec (upt m)) ->
  up_mi_old (upt m) <= r < two32 ->
  up_sec (upt m) + (r - up_mi_old (upt m)) / 1000 < two32 ->
  up_mi_old (upt (resync_at r m)) = r
  /\ up_sec (upt (resync_at r m))
     = up_sec (upt m) + (r - up_mi_old (upt m)) / 1000.
Proof.
  intros Ho Hu Hr Hno. unfold resync_at.
  assert (Hwf : uptime_wf (set_clock r m)).
  { unfold uptime_wf, is_u32 in *. cbn. lia. }
  split; [rewrite (upt_update (set_clock r m)); reflexivity|].
  rewrite (up_sec_update_forward _ Hwf) by (cbn; lia).
  cbn [set_clock upt with_hw millis hw clock].
  apply wrap32_small. unfold is_u32 in *. lia.
Qed.

Lemma last_cons_default (r d : Z) (rest : list Z) :
  last (r :: rest) d = last rest r.
Proof.
  revert r d. induction rest as [|x xs IH]; intros r d; [reflexivity|].
  change (last (r :: x :: xs) d) with (last (x :: xs) d).
  now rewrite (IH x d), (IH x r).
Qed.

Lemma ascending_last (r : Z) (rest : list Z) :
  ascending r rest -> r <= last rest r.
Proof.
  revert r. induction rest as [|x xs IH]; intros r H; [cbn [last]; lia|].
  cbn [ascending] in H. destruct H as [Hx Hxs]. specialize (IH x Hxs).
  rewrite last_cons_default. lia.
Qed.

(** Over readings that never go backwards, the seconds added by a sequence
    of resyncs never exceed the elapsed time, and fall short of it by less
    than one second for each call (the fraction dropped by that call). *)
Theorem resyncs_drift (readings : list Z) (m : machine) :
  is_u32 (up_mi_old (upt m)) -> is_u32 (up_sec (upt m)) ->
  ascending (up_mi_old (upt m)) readings ->
  up_sec (upt m) + (last readings (up_mi_old (upt m)) - up_mi_old (upt m)) / 1000
  < two32 ->
  let elapsed := last readings (up_mi_old (upt m)) - up_mi_old (upt m) in
  let added := up_sec (upt (resyncs readings m)) - up_sec (upt m) in
  up_mi_old (upt (resyncs readings m)) = last readings (up_mi_old (upt m))
  /\ 0 <= added
  /\ 1000 * added <= elapsed
  /\ elapsed <= 1000 * added + 999 * Z.of_nat (List.length readings).
Proof.
  revert m. induction readings as [|r rest IH]; intros m Ho Hu Hasc Hno.
  - cbv zeta. cbn [resyncs fold_left last List.length].
    repeat split; lia.
  - cbn [ascending] in Hasc. destruct Hasc as [Hr Hasc].
    rewrite last_cons_default in *.
    pose proof (ascending_last r rest Hasc) as Hle.
    assert (Hstep : up_sec (upt m) + (r - up_mi_old (upt m)) / 1000 < two32)
      by (unfold is_u32 in *; lia).
    destruct (resync_at_forward r m Ho Hu Hr Hstep) as [E1 E2].
    change (resyncs (r :: rest) m) with (resyncs rest (resync_at r m)).
    set (m1 := resync_at r m) in *.
    assert (Ho1 : is_u32 (up_mi_old (upt m1)))
      by (rewrite E1; unfold is_u32 in *; lia).
    assert (Hu1 : is_u32 (up_sec (upt m1)))
      by (rewrite E2; unfold is_u32 in *; lia).
    rewrite <- E1 in Hasc.
    assert (Hno1 : up_sec (upt m1)
                   + (last rest (up_mi_old (upt m1)) - up_mi_old (upt m1)) / 1000
                   < two32)
      by (rewrite E1, E2; unfold is_u32 in *; lia).
    specialize (IH m1 Ho1 Hu1 Hasc Hno1). cbv zeta in IH.
    rewrite E1, E2 in IH. destruct IH as (I1 & I2 & I3 & I4).
    cbv zeta. cbn [List.length]. rewrite Nat2Z.inj_succ.
    unfold is_u32 in *. repeat split; try assumption; lia.
Qed.

Lemma resyncs_drift_witness :
  is_u32 (up_mi_old (upt (power_on UNIT_EU 255)))
  /\ is_u32 (up_sec (upt (power_on UNIT_EU 255)))
  /\ ascending (up_mi_old (upt (power_on UNIT_EU 255))) [1500; 2999; 4000]
  /\ up_sec (upt (resyncs [1500; 2999; 4000] (power_on UNIT_EU 255))) = 3
  /\ 1000 * (up_sec (upt (resyncs [1500; 2999; 4000] (power_on UNIT_EU 255)))
             - up_sec (upt (power_on UNIT_EU 255)))
     <= last [1500; 2999; 4000] (up_mi_old (upt (power_on UNIT_EU 255)))
        - up_mi_old (upt (power_on UNIT_EU 255)).
Proof.
  assert (H1 : is_u32 (up_mi_old (upt (power_on UNIT_EU 255))))
    by (unfold is_u32; vm_compute; repeat split; discriminate).
  assert (H2 : is_u32 (up_sec (upt (power_on UNIT_EU 255))))
    by (unfold is_u32; vm_compute; repeat split; discriminate).
  assert (H3 : ascending (up_mi_old (upt (power_on UNIT_EU 255)))
                         [1500; 2999; 4000])
    by (vm_compute; repeat split; discriminate).
  assert (H4 : up_sec (upt (power_on UNIT_EU 255))
               + (last [1500; 2999; 4000]
                       (up_mi_old (upt (power_on UNIT_EU 255)))
                  - up_mi_old (upt (power_on UNIT_EU 255))) / 1000 < two32)
    by (vm_compute; reflexivity).
  split; [exact H1|]. split; [exact H2|]. split; [exact H3|].
  split; [vm_compute; reflexivity|].
  pose proof (resyncs_drift [1500; 2999; 4000] (power_on UNIT_EU 255)
                            H1 H2 H3 H4) as H.
  cbv zeta in H. exact (proj1 (proj2 (proj2 H))).
Defined.

(** When the counter has wrapped and the previous reading is at most
    [up_mi_max], the delta the resync uses is two milliseconds short of the
    time that really passed on the 32-bit counter; it is never negative. *)
Theorem resync_wrap_two_short (m : machine) :
  uptime_wf m ->
  millis m < up_mi_old (upt m) -> up_mi_old (upt m) <= up_mi_max ->
  let m' := update_up_sec_from_millis m in
  diff_mi (upt m') = wrap32 (millis m - up_mi_old (upt m)) - 2
  /\ 0 <= diff_mi (upt m')
  /\ diff_sec (upt m') <= wrap32 (millis m - up_mi_old (upt m)) / 1000
  /\ up_mi_old (upt m') = millis m.
Proof.
  intros (Hc & Ho & Hu) Hlt Hmax m'.
  assert (Hd : diff_mi (upt m') = wrap32 (millis m - up_mi_old (upt m)) - 2).
  { unfold m'. rewrite diff_mi_update.
    replace (up_mi_old (upt m) <=? millis m) with false
      by (symmetry; apply Z.leb_gt; exact Hlt).
    unfold wrap32, is_u32, two32, up_mi_max in *. lia. }
  assert (Hs : diff_sec (upt m') = diff_mi (upt m') / 1000).
  { unfold m'. rewrite (upt_update m). reflexivity. }
  split; [exact Hd|].
  split; [rewrite Hd; unfold wrap32, is_u32, two32, up_mi_max in *; lia|].
  split; [rewrite Hs, Hd; lia|].
  unfold m'. rewrite (upt_update m). reflexivity.
Qed.

Lemma resync_wrap_two_short_witness :
  uptime_wf wrap_example
  /\ millis wrap_example < up_mi_old (upt wrap_example)
  /\ up_mi_old (upt wrap_example) <= up_mi_max
  /\ wrap32 (millis wrap_example - up_mi_old (upt wrap_example)) = 10
  /\ diff_mi (upt (update_up_sec_from_millis wrap_example))
     = wrap32 (millis wrap_example - up_mi_old (upt wrap_example)) - 2.
Proof.
  assert (H1 : uptime_wf wrap_example).
  { unfold uptime_wf, is_u32. vm_compute. repeat split; discriminate. }
  assert (H2 : millis wrap_example < up_mi_old (upt wrap_example))
    by (vm_compute; reflexivity).
  assert (H3 : up_mi_old (upt wrap_example) <= up_mi_max)
    by (vm_compute; discriminate).
  split; [exact H1|]. split; [exact H2|]. split; [exact H3|].
  split; [vm_compute; reflexivity|].
  exact (proj1 (resync_wrap_two_short wrap_example H1 H2 H3)).
Defined.

(** ** Sleep-time accounting *)

Lemma update_up_sec (m : machine) :
  slw (update_up_sec_from_millis m) = slw m
  /\ is_u32 (up_sec (upt (update_up_sec_from_millis m))).
Proof.
  split; [|apply up_sec_update_range].
  explode m. run. split_ifs; reflexivity.
Qed.

(** Every time-accounting operation that does not overflow [up_sec] keeps
    the sleep time below the window start and the window start below the
    uptime. *)
Lemma apply_op_sleep_inv (o : time_op) (m : machine) :
  sleep_inv m ->
  up_sec (upt m) <= up_sec (upt (apply_op o m)) ->
  sleep_inv (apply_op o m).
Proof.
  unfold sleep_inv. intros (H0 & H1 & H2 & H3) Hmono.
  destruct o; cbn [apply_op] in *.
  - destruct (update_up_sec m) as [Es Hr]. rewrite Es.
    unfold is_u32 in Hr. lia.
  - revert Hmono. explode m. run. intros Hmono.
    split_ifs; run;
      repeat match goal with
             | |- context [wrap32 ?a] =>
                 pose proof (wrap32_range a); generalize dependent (wrap32 a);
                 intros
             end; unfold is_u32 in *; lia.
  - revert Hmono. explode m. run. intros Hmono.
    split_ifs; run;
      repeat match goal with
             | |- context [wrap32 ?a] =>
                 pose proof (wrap32_range a); generalize dependent (wrap32 a);
                 intros
             end; unfold is_u32 in *; lia.
  - revert Hmono. explode m. run. intros Hmono.
    split_ifs; run; ztests;
      try rewrite (wrap32_small (c_dst0 + _));
      try rewrite (wrap32_small (wrap32 _ - dst_start0));
      repeat match goal with
             | H : context [wrap32 ?a] |- _ =>
                 pose proof (wrap32_range a); generalize dependent (wrap32 a);
                 intros
             | |- context [wrap32 ?a] =>
                 pose proof (wrap32_range a); generalize dependent (wrap32 a);
                 intros
             end; unfold is_u32 in *; try lia.
  - revert Hmono. explode m. run. intros Hmono.
    split_ifs; run;
      repeat match goal with
             | |- context [wrap32 ?a] =>
                 pose proof (wrap32_range a); generalize dependent (wrap32 a);
                 intros
             end; unfold is_u32 in *; lia.
Qed.

(** From a state where the sleep time is covered by the uptime (such as
    power-on), any sequence of resyncs, sleeps, wakes and uptime-screen
    queries that does not overflow [up_sec] keeps it covered: the display
    sleep time never exceeds the uptime. *)
Theorem sleep_time_within_uptime (evs : list (Z * time_op)) (m : machine) :
  sleep_inv m -> no_up_sec_overflow evs m ->
  sleep_inv (run_ops evs m)
  /\ c_dst (slw (run_ops evs m)) <= up_sec (upt (run_ops evs m)).
Proof.
  intros Hi Hn.
  assert (H : sleep_inv (run_ops evs m)).
  { revert m Hi Hn. induction evs as [|[now o] rest IH]; intros m Hi Hn.
    - exact Hi.
    - cbn [run_ops no_up_sec_overflow] in *. destruct Hn as [Hstep Hrest].
      apply IH; [|exact Hrest].
      apply apply_op_sleep_inv; [exact Hi | exact Hstep]. }
  split; [exact H|]. unfold sleep_inv in H. lia.
Qed.

Lemma sleep_time_within_uptime_witness :
  sleep_inv (power_on UNIT_EU 255)
  /\ no_up_sec_overflow
       [(10000, OpGoSleep); (80000, OpWake); (95000, OpInfo)]
       (power_on UNIT_EU 255)
  /\ c_dst (slw (run_ops [(10000, OpGoSleep); (80000, OpWake); (95000, OpInfo)]
                         (power_on UNIT_EU 255)))
     <= up_sec (upt (run_ops [(10000, OpGoSleep); (80000, OpWake);
                              (95000, OpInfo)]
                             (power_on UNIT_EU 255))).
Proof.
  assert (H1 : sleep_inv (power_on UNIT_EU 255)).
  { unfold sleep_inv. vm_compute. repeat split; discriminate. }
  assert (H2 : no_up_sec_overflow
                 [(10000, OpGoSleep); (80000, OpWake); (95000, OpInfo)]
                 (power_on UNIT_EU 255)).
  { vm_compute. repeat split; discriminate. }
  split; [exact H1|]. split; [exact H2|].
  exact (proj2 (sleep_time_within_uptime _ _ H1 H2)).
Defined.

(** While the sleep time is covered by the uptime and [up_sec] does not
    overflow, the uptime screen shows a wake time and a sleep time that add
    up to the uptime. *)
Theorem uptime_screen_adds_up (m : machine) :
  sleep_inv m ->
  up_sec (upt m) <= up_sec (upt (update_up_sec_from_millis m)) ->
  let m' := display_uptime_info m in
  c_dwt (slw m') + c_dst (slw m') = c_uptime (slw m')
  /\ 0 <= c_dwt (slw m') <= c_uptime (slw m')
  /\ c_uptime (slw m') = up_sec (upt m').
Proof.
  unfold sleep_inv. intros (H0 & H1 & H2 & H3) Hmono. revert Hmono.
  explode m. run. intros Hmono.
  split_ifs; run;
    match goal with
    | |- context [wrap32 (wrap32 ?a - ?b)] =>
        pose proof (wrap32_range a);
        rewrite (wrap32_small (wrap32 a - b)) by (unfold is_u32 in *; lia)
    end; unfold is_u32 in *; repeat split; try reflexivity; lia.
Qed.

Lemma uptime_screen_adds_up_witness :
  sleep_inv (set_clock 95000 (wakeDisplay asleep_example))
  /\ c_dwt (slw (display_uptime_info
                   (set_clock 95000 (wakeDisplay asleep_example))))
     + c_dst (slw (display_uptime_info
                     (set_clock 95000 (wakeDisplay asleep_example))))
     = 95.
Proof.
  assert (H1 : sleep_inv (set_clock 95000 (wakeDisplay asleep_example))).
  { unfold sleep_inv. vm_compute. repeat split; discriminate. }
  assert (H2 : up_sec (upt (set_clock 95000 (wakeDisplay asleep_example)))
               <= up_sec (upt (update_up_sec_from_millis
                                 (set_clock 95000 (wakeDisplay asleep_example)))))
    by (vm_compute; discriminate).
  split; [exact H1|].
  pose proof (uptime_screen_adds_up _ H1 H2) as H. cbv zeta in H.
  rewrite (proj1 H). vm_compute. reflexivity.
Defined.

(** ** READ-FROM-EEPROM button *)

(** A click is classified by the time between the poll that first saw the
    button pressed and the poll that saw it released: under 1 s it is a
    short press (1), over 3 s a long press (2), in between nothing (0); the
    press time is cleared.  A press first seen when [millis()] reads 0 is
    not latched, and its release reports nothing. *)
Theorem click_classified (b : read_button) (t0 t1 : Z) (holds : list Z) :
  butEETimePressed b = 0 ->
  (0 < t0 ->
   Forall (fun t => wrap32 (t - t0) <= 3000) holds ->
   let d := wrap32 (t1 - t0) in
   butEETimePressed (click t0 holds t1 b) = 0
   /\ butmode (click t0 holds t1 b)
      = (if 3000 <? d then 2 else if d <? 1000 then 1 else 0))
  /\ (t0 = 0 ->
      butEETimePressed (Get_Button false t0 b) = 0
      /\ butmode (click t0 [] t1 b) = 0).
Proof.
  intros Hb. split.
  - intros Hpos Hall d. unfold click.
    assert (E : Get_Button false t0 b = mkReadButton false t0 (butmode b)).
    { unfold Get_Button. cbn [negb]. now rewrite Hb. }
    rewrite E, hold_keeps_press by (assumption || lia).
    unfold Get_Button. cbn [negb butEETimePressed butmode].
    replace (0 <? t0) with true by (symmetry; now apply Z.ltb_lt).
    split; reflexivity.
  - intros ->. unfold click, Get_Button. cbn [fold_left negb]. rewrite Hb.
    cbn. split; reflexivity.
Qed.

Lemma click_classified_witness :
  butEETimePressed (mkReadButton true 0 0) = 0
  /\ 0 < 5000
  /\ Forall (fun t => wrap32 (t - 5000) <= 3000) [5200; 5400]
  /\ butmode (click 5000 [5200; 5400] 5600 (mkReadButton true 0 0)) = 1.
Proof.
  assert (H1 : butEETimePressed (mkReadButton true 0 0) = 0) by reflexivity.
  assert (H2 : 0 < 5000) by reflexivity.
  assert (H3 : Forall (fun t => wrap32 (t - 5000) <= 3000) [5200; 5400])
    by (repeat constructor; vm_compute; discriminate).
  split; [exact H1|]. split; [exact H2|]. split; [exact H3|].
  rewrite (proj2 (proj1 (click_classified _ 5000 5600 [5200; 5400] H1) H2 H3)).
  reflexivity.
Defined.

(** A button held for more than 3 s is reported as a long press by the
    first poll after that, which also clears the press time.  A release seen
    by the very next poll then reports nothing; but if one more poll sees
    the button still held, a release within 1 s of that poll is reported as
    a short press. *)
Theorem long_press_then_release (b : read_button) (t0 t2 : Z) (holds : list Z) :
  butEETimePressed b = 0 -> 0 < t0 ->
  Forall (fun t => wrap32 (t - t0) <= 3000) holds ->
  3000 < wrap32 (t2 - t0) ->
  let b2 := Get_Button false t2
              (fold_left (fun b t => Get_Button false t b) holds
                         (Get_Button false t0 b)) in
  butmode b2 = 2 /\ butEETimePressed b2 = 0
  /\ (forall t4, butmode (Get_Button true t4 b2) = 0)
  /\ (forall t3 t4, 0 < t3 -> wrap32 (t4 - t3) < 1000 ->
      butmode (Get_Button true t4 (Get_Button false t3 b2)) = 1).
Proof.
  intros Hb Hpos Hall Hlong b2.
  assert (E : Get_Button false t0 b = mkReadButton false t0 (butmode b)).
  { unfold Get_Button. cbn [negb]. now rewrite Hb. }
  assert (E2 : b2 = mkReadButton false 0 2).
  { unfold b2. rewrite E, hold_keeps_press by (assumption || lia).
    unfold Get_Button. cbn [negb butEETimePressed butmode].
    replace (t0 =? 0) with false by (symmetry; apply Z.eqb_neq; lia).
    replace (3000 <? wrap32 (t2 - t0)) with true
      by (symmetry; now apply Z.ltb_lt).
    reflexivity. }
  rewrite E2. split; [reflexivity|]. split; [reflexivity|]. split.
  - intros t4. reflexivity.
  - intros t3 t4 H3 H4. unfold Get_Button.
    cbn [negb butEETimePressed butmode]. change (0 =? 0) with true.
    cbn [butEETimePressed butmode].
    replace (0 <? t3) with true by (symmetry; now apply Z.ltb_lt).
    cbn [butmode].
    replace (3000 <? wrap32 (t4 - t3)) with false
      by (symmetry; apply Z.ltb_ge; lia).
    replace (wrap32 (t4 - t3) <? 1000) with true
      by (symmetry; now apply Z.ltb_lt).
    reflexivity.
Qed.

Lemma long_press_then_release_witness :
  butEETimePressed (mkReadButton true 0 0) = 0 /\ 0 < 5000
  /\ Forall (fun t => wrap32 (t - 5000) <= 3000) [6000; 7000]
  /\ 3000 < wrap32 (8100 - 5000)
  /\ butmode (Get_Button true 8300
                (Get_Button false 8200
                   (Get_Button false 8100
                      (fold_left (fun b t => Get_Button false t b) [6000; 7000]
                                 (Get_Button false 5000
                                             (mkReadButton true 0 0))))))
     = 1.
Proof.
  assert (H1 : butEETimePressed (mkReadButton true 0 0) = 0) by reflexivity.
  assert (H2 : 0 < 5000) by reflexivity.
  assert (H3 : Forall (fun t => wrap32 (t - 5000) <= 3000) [6000; 7000])
    by (repeat constructor; vm_compute; discriminate).
  assert (H4 : 3000 < wrap32 (8100 - 5000)) by (vm_compute; reflexivity).
  split; [exact H1|]. split; [exact H2|]. split; [exact H3|].
  split; [exact H4|].
  pose proof (long_press_then_release _ 5000 8100 [6000; 7000] H1 H2 H3 H4)
    as H. cbv zeta in H. destruct H as (_ & _ & _ & H).
  apply H; vm_compute; reflexivity.
Defined.

Lemma Get_Button_held_mode (t : Z) (b : read_button) :
  butmode b <> 0 -> butmode (Get_Button false t b) <> 0.
Proof.
  intros H. unfold Get_Button. cbn [negb].
  destruct (butEETimePressed b =? 0); [exact H|].
  destruct (3000 <? _); cbn [butmode]; [discriminate | exact H].
Qed.

(** [Clear_Button()] keeps polling while the button is held (when it was
    entered with a press reported), and returns with [butmode = 0] at the
    latest on the second poll in a row that sees the button released. *)
Theorem Clear_Button_waits_for_release
        (held rest : list (bool * Z)) (t1 t2 : Z) (b : read_button) :
  (butmode b <> 0 -> Forall (fun p => fst p = false) held ->
   Clear_Button held b = None)
  /\ (exists b',
        Clear_Button (held ++ (true, t1) :: (true, t2) :: rest) b = Some b'
        /\ butmode b' = 0).
Proof.
  split.
  - revert b. induction held as [|[pin now] ps IH]; intros b Hm Hall;
      [reflexivity|].
    inversion Hall as [|? ? Hp Hps]; subst. cbn [fst] in Hp. subst pin.
    cbn [Clear_Button]. pose proof (Get_Button_held_mode now b Hm) as Hm'.
    apply Z.eqb_neq in Hm'. rewrite Hm'. apply IH; [|exact Hps].
    now apply Z.eqb_neq.
  - revert b. induction held as [|[pin now] ps IH]; intros b.
    + cbn [app Clear_Button].
      destruct (butmode (Get_Button true t1 b) =? 0) eqn:E1.
      * eexists. split; [reflexivity|]. now apply Z.eqb_eq.
      * assert (Ht : butEETimePressed (Get_Button true t1 b) = 0
                     \/ butmode (Get_Button true t1 b) = 0).
        { unfold Get_Button. cbn [negb].
          destruct (0 <? butEETimePressed b); cbn; [left | right]; reflexivity. }
        destruct Ht as [Ht | Ht]; [|apply Z.eqb_neq in E1; contradiction].
        assert (E2 : butmode (Get_Button true t2 (Get_Button true t1 b)) = 0).
        { unfold Get_Button at 1. cbn [negb]. rewrite Ht. reflexivity. }
        rewrite E2. cbn. eexists. split; [reflexivity | exact E2].
    + cbn [app Clear_Button].
      destruct (butmode (Get_Button pin now b) =? 0) eqn:E.
      * eexists. split; [reflexivity|]. now apply Z.eqb_eq.
      * apply IH.
Qed.

Lemma Clear_Button_waits_for_release_witness :
  butmode (mkReadButton false 0 2) <> 0
  /\ Forall (fun p => fst p = false) [(false, 8200); (false, 8300)]
  /\ Clear_Button [(false, 8200); (false, 8300)] (mkReadButton false 0 2) = None.
Proof.
  assert (H1 : butmode (mkReadButton false 0 2) <> 0) by discriminate.
  assert (H2 : Forall (fun p : bool * Z => fst p = false)
                      [(false, 8200); (false, 8300)])
    by (repeat constructor).
  split; [exact H1|]. split; [exact H2|].
  exact (proj1 (Clear_Button_waits_for_release
                  [(false, 8200); (false, 8300)] [] 0 0 _) H1 H2).
Defined.

(** ** Stop distance in the EEPROM *)

Lemma prepare_lights_in_range (cfg : units) (m : machine) :
  units_wf cfg ->
  range_min cfg <= int16 (counter (lts m) + light1s (lts m)) <= range_max cfg ->
  light1 (lts (prepare_lights cfg m))
  = int16 (counter (lts m) + light1s (lts m))
  /\ counter (lts (prepare_lights cfg m)) = counter (lts m)
  /\ light1s (lts (prepare_lights cfg m)) = light1s (lts m).
Proof.
  intros Hw Hr. explode m. destruct cfg. unfold units_wf in Hw. run.
  revert Hr. generalize (int16 (counter0 + light1s0)). intros a Hr.
  split_ifs; ztests; repeat split; try reflexivity; lia.
Qed.

Lemma prepare_lights_frame (cfg : units) (m : machine) :
  upt (prepare_lights cfg m) = upt m /\ slw (prepare_lights cfg m) = slw m
  /\ tmr (prepare_lights cfg m) = tmr m /\ hw (prepare_lights cfg m) = hw m
  /\ enc (prepare_lights cfg m) = enc m.
Proof. explode m. run. split_ifs; repeat split; reflexivity. Qed.


Lemma store_to_EEPROM_cell (cfg : units) (m : machine) :
  0 <= light1 (lts m) < 256 ->
  eeprom (hw (store_to_EEPROM cfg m)) E_address = light1 (lts m).
Proof.
  intros Hl.
  destruct (store_to_EEPROM_effect cfg m Hl) as (_ & _ & Same & Diff).
  destruct (Z.eq_dec (eeprom (hw m) E_address) (light1 (lts m))) as [E | N].
  - destruct (Same E) as [Ee _]. now rewrite Ee.
  - now destruct (Diff N).
Qed.



(** The stored stop distance survives a restart: after a store, [setup()]
    of the restarted board and the first pass give the same stop distance,
    with the uptime and sleep counters back at zero. *)
Theorem stored_distance_survives_reboot (cfg : units) (m x : machine) :
  units_wf cfg -> range_max cfg < 255 ->
  range_min cfg <= light1 (lts m) <= range_max cfg ->
  eeprom (hw x) E_address = eeprom (hw (store_to_EEPROM cfg m)) E_address ->
  let r := prepare_lights cfg (reboot cfg x) in
  light1 (lts r) = light1 (lts m)
  /\ counter (lts r) = 0
  /\ up_sec (upt r) = 0 /\ c_dst (slw r) = 0
  /\ EEPROM_read E_address r = light1 (lts m).
Proof.
  intros Hw Hmax Hr Hx r.
  assert (Hb : 0 <= light1 (lts m) < 256) by (unfold units_wf in Hw; lia).
  rewrite (store_to_EEPROM_cell cfg m Hb) in Hx.
  assert (Hne : (light1 (lts m) =? 255) = false) by (apply Z.eqb_neq; lia).
  assert (Hl : lts (reboot cfg x)
               = mkLights 0 0 0 0 (light1 (lts m)) 0 (light1s_default cfg)
                          (light1 (lts m))).
  { unfold reboot, power_on, EEPROM_read. rewrite Hx. cbn [lts].
    now rewrite Hne. }
  assert (Hin : range_min cfg
                <= int16 (counter (lts (reboot cfg x))
                          + light1s (lts (reboot cfg x)))
                <= range_max cfg).
  { rewrite Hl. cbn [counter light1s]. rewrite Z.add_0_l, int16_small by lia.
    exact Hr. }
  destruct (prepare_lights_in_range cfg _ Hw Hin) as (P1 & P2 & _).
  unfold r. rewrite P1, P2, Hl. cbn [counter light1s].
  rewrite Z.add_0_l, int16_small by lia.
  destruct (prepare_lights_frame cfg (reboot cfg x)) as (F1 & F2 & _ & F4 & _).
  unfold EEPROM_read. rewrite F1, F2, F4.
  repeat split; try reflexivity.
  unfold reboot, power_on, EEPROM_read. cbn [hw eeprom].
  rewrite Z.eqb_refl. exact Hx.
Qed.

Lemma stored_distance_survives_reboot_witness :
  units_wf UNIT_EU /\ range_max UNIT_EU < 255
  /\ range_min UNIT_EU <= light1 (lts ready_to_store) <= range_max UNIT_EU
  /\ light1 (lts (prepare_lights UNIT_EU
                    (reboot UNIT_EU (store_to_EEPROM UNIT_EU ready_to_store))))
     = light1 (lts ready_to_store).
Proof.
  assert (Hw : units_wf UNIT_EU).
  { unfold units_wf. vm_compute. repeat split; discriminate. }
  assert (Hm : range_max UNIT_EU < 255) by reflexivity.
  assert (Hr : range_min UNIT_EU <= light1 (lts ready_to_store)
               <= range_max UNIT_EU)
    by (vm_compute; repeat split; discriminate).
  split; [exact Hw|]. split; [exact Hm|]. split; [exact Hr|].
  apply (stored_distance_survives_reboot UNIT_EU ready_to_store _ Hw Hm Hr).
  vm_compute. reflexivity.
Defined.

(** Reading a cell that was never written: [setup()] keeps the default stop
    distance, but the READ button copies the 255 into [light1s], and the
    next pass limits the stop distance to [range_max]. *)
Theorem read_of_erased_cell (cfg : units) (m : machine) :
  units_wf cfg -> range_max cfg < 255 ->
  eeprom (hw m) E_address = 255 ->
  let r := prepare_lights cfg (read_from_EEPROM cfg m) in
  light1s (lts r) = 255
  /\ light1 (lts r) = range_max cfg
  /\ counter (lts r) = range_max cfg - 255
  /\ light1s (lts (reboot cfg m)) = light1s_default cfg.
Proof.
  intros Hw Hmax He. explode m. destruct cfg. unfold units_wf in Hw.
  run. rewrite He. change (0 + 255) with 255.
  change (int16 255) with 255. change (255 =? 255) with true. cbv iota.
  split_ifs; ztests;
    rewrite ?(int16_small (_ - _)) by lia;
    repeat split; try reflexivity; lia.
Qed.

Lemma read_of_erased_cell_witness :
  units_wf UNIT_EU /\ range_max UNIT_EU < 255
  /\ eeprom (hw ready_to_store) E_address = 255
  /\ light1 (lts (prepare_lights UNIT_EU
                    (read_from_EEPROM UNIT_EU ready_to_store))) = 150.
Proof.
  assert (Hw : units_wf UNIT_EU).
  { unfold units_wf. vm_compute. repeat split; discriminate. }
  assert (Hm : range_max UNIT_EU < 255) by reflexivity.
  assert (He : eeprom (hw ready_to_store) E_address = 255)
    by (vm_compute; reflexivity).
  split; [exact Hw|]. split; [exact Hm|]. split; [exact He|].
  exact (proj1 (proj2 (read_of_erased_cell UNIT_EU ready_to_store Hw Hm He))).
Defined.



(** ** Timeout handling *)

Lemma wakeDisplay_timers (x : machine) :
  leds_off (tmr (wakeDisplay x)) = leds_off (tmr x)
  /\ dimmed (tmr (wakeDisplay x)) = 0
  /\ start_timeout (tmr (wakeDisplay x)) = start_timeout (tmr x)
  /\ timeout (tmr (wakeDisplay x)) = timeout (tmr x)
  /\ last_dist (tmr (wakeDisplay x)) = last_dist (tmr x)
  /\ displaysleeping (slw (wakeDisplay x))
     = (if displaysleeping (slw x) =? 1 then 0 else displaysleeping (slw x))
  /\ oled_dim (hw (wakeDisplay x)) = false
  /\ lts (wakeDisplay x) = lts x.
Proof. explode x. run. split_ifs; repeat split; reflexivity. Qed.

(** Motion wins over the timeouts: a pass that finds the car in range and
    moving at [range_diff] or more per second clears the stationary timer
    and leaves the system AWAKE, whatever state it was in. *)
Theorem motion_wakes (cfg : units) (m : machine) (distance : Q) :
  Qlt_bool distance (inject_Z (light3 (lts m))) = true ->
  500 < wrap32 (millis m - last_move (tmr m)) ->
  Qlt_bool (Qabs (last_dist (tmr m) - distance) * 2)
           (inject_Z (range_diff cfg)) = false ->
  let m' := timeout_handling cfg distance m in
  power_state m' = AWAKE
  /\ leds_off (tmr m') = 0 /\ dimmed (tmr m') = 0
  /\ start_timeout (tmr m') = 0 /\ timeout (tmr m') = 0
  /\ last_dist (tmr m') = distance
  /\ oled_dim (hw m') = false
  /\ displaysleeping (slw m') <> 1.
Proof.
  intros Hin Hdue Hmoved m'. apply Z.ltb_lt in Hdue.
  unfold m', timeout_handling. rewrite Hin, Hdue. cbv zeta. rewrite Hmoved.
  match goal with |- context [wakeDisplay ?x] =>
    destruct (wakeDisplay_timers x) as (W1 & W2 & W3 & W4 & W5 & W6 & W7 & _)
  end.
  unfold power_state. rewrite W1, W2, W3, W4, W5, W6, W7. simp_state.
  destruct (displaysleeping (slw m) =? 1) eqn:E.
  - repeat split; try reflexivity. discriminate.
  - rewrite E. repeat split; try reflexivity. now apply Z.eqb_neq.
Qed.

Lemma motion_wakes_witness :
  Qlt_bool (inject_Z 70) (inject_Z (light3 (lts asleep_60s))) = true
  /\ 500 < wrap32 (millis asleep_60s - last_move (tmr asleep_60s))
  /\ Qlt_bool (Qabs (last_dist (tmr asleep_60s) - inject_Z 70) * 2)
              (inject_Z (range_diff UNIT_EU)) = false
  /\ power_state (timeout_handling UNIT_EU (inject_Z 70) asleep_60s) = AWAKE.
Proof.
  assert (H1 : Qlt_bool (inject_Z 70) (inject_Z (light3 (lts asleep_60s)))
               = true) by (vm_compute; reflexivity).
  assert (H2 : 500 < wrap32 (millis asleep_60s - last_move (tmr asleep_60s)))
    by (vm_compute; reflexivity).
  assert (H3 : Qlt_bool (Qabs (last_dist (tmr asleep_60s) - inject_Z 70) * 2)
                        (inject_Z (range_diff UNIT_EU)) = false)
    by (vm_compute; reflexivity).
  split; [exact H1|]. split; [exact H2|]. split; [exact H3|].
  exact (proj1 (motion_wakes UNIT_EU asleep_60s (inject_Z 70) H1 H2 H3)).
Defined.

(** Nothing in range: the display is dimmed at once; it is sent to sleep
    when more than [DISPLAY_TIMEOUT] seconds have passed since
    [last_outofrange], which is then cleared; until then the sleep window is
    untouched and only the counter shown on the display runs. *)
Theorem out_of_range_pass (cfg : units) (m : machine) (distance : Q) :
  Qlt_bool distance (inject_Z (light3 (lts m))) = false ->
  0 <= DISPLAY_TIMEOUT cfg <= 32 ->
  let m' := timeout_handling cfg distance m in
  let idle := wrap32 (millis m - last_outofrange (tmr m)) in
  dimmed (tmr m') = 1 /\ oled_dim (hw m') = true
  /\ leds_off (tmr m') = leds_off (tmr m)
  /\ (DISPLAY_TIMEOUT cfg * 1000 < idle ->
      last_outofrange (tmr m') = 0
      /\ (displaysleeping (slw m) = 0 ->
          displaysleeping (slw m') = 1 /\ oled_on (hw m') = false
          /\ dst_start (slw m') = up_sec (upt m'))
      /\ (displaysleeping (slw m) <> 0 -> slw m' = slw m))
  /\ (idle <= DISPLAY_TIMEOUT cfg * 1000 ->
      slw m' = slw m /\ upt m' = upt m
      /\ last_outofrange (tmr m') = last_outofrange (tmr m)
      /\ oled_on (hw m') = oled_on (hw m)).
Proof.
  intros Hout Hdt m' idle.
  assert (Hthr : wrap32 (int16 (DISPLAY_TIMEOUT cfg * 1000))
                 = DISPLAY_TIMEOUT cfg * 1000).
  { rewrite int16_small by lia. apply wrap32_small. unfold is_u32, two32. lia. }
  unfold m', timeout_handling. rewrite Hout. cbv zeta. simp_state.
  rewrite Hthr. fold idle.
  destruct (DISPLAY_TIMEOUT cfg * 1000 <? idle) eqn:E; ztests.
  - destruct (Z.eq_dec (displaysleeping (slw m)) 0) as [Hs | Hs].
    + rewrite go_sleepDisplay_awake by (simp_state; exact Hs). simp_state.
      repeat split; intros; try reflexivity; try lia; try contradiction.
    + unfold go_sleepDisplay. simp_state.
      replace (displaysleeping (slw m) =? 0) with false
        by (symmetry; now apply Z.eqb_neq).
      simp_state.
      repeat split; intros; try reflexivity; try lia; try contradiction.
  - unfold start_timer_if_unset. simp_state.
    destruct (start_timeout (tmr m) =? 0); simp_state;
      repeat split; intros; try reflexivity; lia.
Qed.

Lemma out_of_range_pass_witness :
  Qlt_bool (inject_Z 400) (inject_Z (light3 (lts before_pass_16s))) = false
  /\ 0 <= DISPLAY_TIMEOUT UNIT_EU <= 32
  /\ dimmed (tmr (timeout_handling UNIT_EU (inject_Z 400) before_pass_16s)) = 1.
Proof.
  assert (H1 : Qlt_bool (inject_Z 400)
                        (inject_Z (light3 (lts before_pass_16s))) = false)
    by (vm_compute; reflexivity).
  assert (H2 : 0 <= DISPLAY_TIMEOUT UNIT_EU <= 32)
    by (vm_compute; repeat split; discriminate).
  split; [exact H1|]. split; [exact H2|].
  exact (proj1 (out_of_range_pass UNIT_EU before_pass_16s (inject_Z 400) H1 H2)).
Defined.

Lemma wakeDisplay_asleep_out (m : machine) :
  displaysleeping (slw m) = 1 ->
  last_outofrange (tmr (wakeDisplay m)) = millis m
  /\ displaysleeping (slw (wakeDisplay m)) = 0
  /\ oled_on (hw (wakeDisplay m)) = true
  /\ lts (wakeDisplay m) = lts m.
Proof.
  intros Hs. rewrite (wakeDisplay_asleep m Hs).
  cbn [tmr slw hw lts last_outofrange displaysleeping oled_on].
  repeat split; reflexivity.
Qed.

Lemma out_of_range_soon (cfg : units) (x : machine) (distance : Q) :
  Qlt_bool distance (inject_Z (light3 (lts x))) = false ->
  0 <= DISPLAY_TIMEOUT cfg <= 32 ->
  wrap32 (millis x - last_outofrange (tmr x)) <= DISPLAY_TIMEOUT cfg * 1000 ->
  let p := timeout_handling cfg distance x in
  slw p = slw x /\ oled_on (hw p) = oled_on (hw x)
  /\ dimmed (tmr p) = 1 /\ oled_dim (hw p) = true.
Proof.
  intros Hout Hdt Hsoon p.
  assert (Hthr : wrap32 (int16 (DISPLAY_TIMEOUT cfg * 1000))
                 = DISPLAY_TIMEOUT cfg * 1000).
  { rewrite int16_small by lia. apply wrap32_small. unfold is_u32, two32. lia. }
  unfold p, timeout_handling. rewrite Hout. cbv zeta. simp_state.
  rewrite Hthr.
  replace (DISPLAY_TIMEOUT cfg * 1000
           <? wrap32 (clock (hw x) - last_outofrange (tmr x)))
    with false by (symmetry; apply Z.ltb_ge; exact Hsoon).
  unfold start_timer_if_unset. simp_state.
  destruct (start_timeout (tmr x) =? 0); simp_state; repeat split; reflexivity.
Qed.

(** A wake restarts the out-of-range timeout: after a sleeping display was
    woken, a pass that finds nothing in range within [DISPLAY_TIMEOUT]
    seconds of the wake dims the display but leaves it on. *)
Theorem wake_grants_display_timeout
        (cfg : units) (m : machine) (distance : Q) (later : Z) :
  displaysleeping (slw m) = 1 ->
  0 <= DISPLAY_TIMEOUT cfg <= 32 ->
  Qlt_bool distance (inject_Z (light3 (lts m))) = false ->
  wrap32 (later - millis m) <= DISPLAY_TIMEOUT cfg * 1000 ->
  let p := timeout_handling cfg distance (set_clock later (wakeDisplay m)) in
  displaysleeping (slw p) = 0 /\ oled_on (hw p) = true
  /\ dimmed (tmr p) = 1 /\ oled_dim (hw p) = true
  /\ c_dst (slw p) = c_dst (slw (wakeDisplay m)).
Proof.
  intros Hs Hdt Hout Hsoon p.
  destruct (wakeDisplay_asleep_out m Hs) as (W1 & W2 & W3 & W4).
  destruct (out_of_range_soon cfg (set_clock later (wakeDisplay m)) distance)
    as (P1 & P2 & P3 & P4).
  - change (lts (set_clock later (wakeDisplay m))) with (lts (wakeDisplay m)).
    rewrite W4. exact Hout.
  - exact Hdt.
  - change (millis (set_clock later (wakeDisplay m))) with later.
    change (tmr (set_clock later (wakeDisplay m))) with (tmr (wakeDisplay m)).
    rewrite W1. exact Hsoon.
  - fold p in P1, P2, P3, P4. rewrite P1, P2.
    change (slw (set_clock later (wakeDisplay m))) with (slw (wakeDisplay m)).
    change (oled_on (hw (set_clock later (wakeDisplay m))))
      with (oled_on (hw (wakeDisplay m))).
    repeat split; assumption.
Qed.

Lemma wake_grants_display_timeout_witness :
  displaysleeping (slw asleep_60s) = 1
  /\ 0 <= DISPLAY_TIMEOUT UNIT_EU <= 32
  /\ Qlt_bool (inject_Z 400) (inject_Z (light3 (lts asleep_60s))) = false
  /\ wrap32 (74000 - millis asleep_60s) <= DISPLAY_TIMEOUT UNIT_EU * 1000
  /\ displaysleeping
       (slw (timeout_handling UNIT_EU (inject_Z 400)
               (set_clock 74000 (wakeDisplay asleep_60s)))) = 0.
Proof.
  assert (H1 : displaysleeping (slw asleep_60s) = 1) by reflexivity.
  assert (H2 : 0 <= DISPLAY_TIMEOUT UNIT_EU <= 32)
    by (vm_compute; repeat split; discriminate).
  assert (H3 : Qlt_bool (inject_Z 400) (inject_Z (light3 (lts asleep_60s)))
               = false) by (vm_compute; reflexivity).
  assert (H4 : wrap32 (74000 - millis asleep_60s)
               <= DISPLAY_TIMEOUT UNIT_EU * 1000)
    by (vm_compute; discriminate).
  split; [exact H1|]. split; [exact H2|]. split; [exact H3|].
  split; [exact H4|].
  exact (proj1 (wake_grants_display_timeout
                  UNIT_EU asleep_60s (inject_Z 400) 74000 H1 H2 H3 H4)).
Defined.




(** ** Stop distance: thresholds, encoder and switch *)

Lemma prepare_lights_light1 (cfg : units) (m : machine) :
  range_min cfg <= range_max cfg ->
  let a := int16 (counter (lts m) + light1s (lts m)) in
  let l := lts (prepare_lights cfg m) in
  (a < range_min cfg -> light1 l = range_min cfg)
  /\ (range_max cfg < a -> light1 l = range_max cfg)
  /\ (range_min cfg <= a <= range_max cfg -> light1 l = a).
Proof.
  intros Hr. destruct m as [u s t [l0 l1 l2 l3 l1s cnt wl ev] e h].
  destruct cfg. run. generalize (int16 (cnt + l1s)). intros a.
  split_ifs; ztests; repeat split; intros; try reflexivity; lia.
Qed.

Lemma prepare_lights_counter (cfg : units) (m : machine) :
  units_wf cfg -> -10000 <= light1s (lts m) <= 10000 ->
  -32768 <= counter (lts m) < 32768 ->
  let l := lts (prepare_lights cfg m) in
  light1 l = counter l + light1s (lts m)
  /\ light1s l = light1s (lts m)
  /\ -32768 <= counter l < 32768.
Proof.
  intros Hw Hl Hc. destruct m as [u s t [l0 l1 l2 l3 l1s cnt wl ev] e h].
  destruct cfg. unfold units_wf in Hw. run.
  split_ifs; ztests; rewrite ?(int16_small (_ - _)) by lia;
    repeat split; try reflexivity; try lia;
    unfold int16, two16 in *; lia.
Qed.

(** The thresholds are stable: preparing them a second time, with no
    encoder or button input in between, changes nothing. *)
Theorem prepare_lights_idempotent (cfg : units) (m : machine) :
  units_wf cfg -> -10000 <= light1s (lts m) <= 10000 ->
  -32768 <= counter (lts m) < 32768 ->
  prepare_lights cfg (prepare_lights cfg m) = prepare_lights cfg m.
Proof.
  intros Hw Hl Hc. destruct m as [u s t [l0 l1 l2 l3 l1s cnt wl ev] e h].
  destruct cfg. unfold units_wf in Hw. run.
  split_ifs; ztests; try reflexivity;
    try (exfalso; unfold int16, two16 in *; lia).
  all: rewrite ?(int16_small (_ - _)) in * by lia.
  all: try (exfalso; unfold int16, two16 in *; lia).
  all: repeat f_equal; unfold int16, two16 in *; lia.
Qed.

Lemma prepare_lights_idempotent_witness :
  units_wf UNIT_EU
  /\ prepare_lights UNIT_EU (prepare_lights UNIT_EU woken_60s)
     = prepare_lights UNIT_EU woken_60s.
Proof.
  assert (Hw : units_wf UNIT_EU) by (vm_compute; repeat split; discriminate).
  assert (Hl : -10000 <= light1s (lts woken_60s) <= 10000)
    by (vm_compute; split; discriminate).
  assert (Hc : -32768 <= counter (lts woken_60s) < 32768)
    by (vm_compute; split; [discriminate | reflexivity]).
  split; [exact Hw|].
  exact (prepare_lights_idempotent UNIT_EU woken_60s Hw Hl Hc).
Defined.

Lemma update_rising_edge (m : machine) (dt : bool) :
  previousStateCLK (enc m) = false -> displaysleeping (slw m) <> 1 ->
  let m1 := update true dt m in
  counter (lts m1)
  = int16 (if dt then counter (lts m) + 1 else counter (lts m) - 1)
  /\ light1s (lts m1) = light1s (lts m)
  /\ leds_off (tmr m1) = 0 /\ start_timeout (tmr m1) = 0
  /\ timeout (tmr m1) = 0 /\ slw m1 = slw m /\ hw m1 = hw m.
Proof.
  intros Hp Hs. explode m. run. subst. run.
  split_ifs; ztests; try contradiction; repeat split; reflexivity.
Qed.

(** One detent of the rotary encoder while the display is on moves the
    stop distance by exactly one unit, towards the car for DT high and
    away from it for DT low, and never out of [range_min .. range_max];
    it also switches the LEDs back on and restarts the stationary
    counter. *)
Theorem encoder_step_moves_stop_distance
        (cfg : units) (m : machine) (dt : bool) :
  units_wf cfg -> -10000 <= light1s (lts m) <= 10000 ->
  -32768 <= counter (lts m) < 32768 ->
  lts (prepare_lights cfg m) = lts m ->
  previousStateCLK (enc m) = false -> displaysleeping (slw m) <> 1 ->
  let m' := prepare_lights cfg (update true dt m) in
  light1 (lts m')
  = Z.max (range_min cfg)
          (Z.min (range_max cfg) (light1 (lts m) + (if dt then 1 else -1)))
  /\ light1s (lts m') = light1s (lts m)
  /\ leds_off (tmr m') = 0 /\ start_timeout (tmr m') = 0
  /\ timeout (tmr m') = 0.
Proof.
  intros Hw Hl Hc Hp He Hs m'.
  destruct (prepare_lights_counter cfg m Hw Hl Hc) as (P1 & _).
  destruct (prepare_lights_values cfg m Hw) as (R & _).
  cbv zeta in P1, R. rewrite Hp in P1, R.
  destruct (update_rising_edge m dt He Hs) as (U1 & U2 & U3 & U4 & U5 & _).
  cbv zeta in U1, U2, U3, U4, U5.
  assert (Hmm : range_min cfg <= range_max cfg) by (unfold units_wf in Hw; lia).
  destruct (prepare_lights_light1 cfg (update true dt m) Hmm) as (L1 & L2 & L3).
  destruct (prepare_lights_counter cfg (update true dt m) Hw) as (_ & Q2 & _).
  { rewrite U2. exact Hl. }
  { rewrite U1. unfold int16, two16. lia. }
  destruct (prepare_lights_frame cfg (update true dt m)) as (_ & _ & F & _).
  cbv zeta in L1, L2, L3, Q2. rewrite U1, U2 in L1, L2, L3.
  assert (E : int16 (int16 (if dt then counter (lts m) + 1
                            else counter (lts m) - 1) + light1s (lts m))
              = light1 (lts m) + (if dt then 1 else -1)).
  { unfold units_wf in Hw.
    destruct dt;
      [rewrite (int16_small (counter (lts m) + 1)) by lia
      |rewrite (int16_small (counter (lts m) - 1)) by lia];
      rewrite int16_small by lia; lia. }
  rewrite E in L1, L2, L3. unfold m'. rewrite F, Q2, U2, U3, U4, U5.
  repeat split; try reflexivity.
  destruct (Z_lt_dec (light1 (lts m) + (if dt then 1 else -1)) (range_min cfg))
    as [Hlo|Hlo]; [rewrite (L1 Hlo); lia|].
  destruct (Z_lt_dec (range_max cfg) (light1 (lts m) + (if dt then 1 else -1)))
    as [Hhi|Hhi]; [rewrite (L2 Hhi); lia|].
  rewrite L3 by lia. lia.
Qed.

Lemma encoder_step_moves_stop_distance_witness :
  units_wf UNIT_EU
  /\ lts (prepare_lights UNIT_EU parked_2s) = lts parked_2s
  /\ light1 (lts parked_2s) = 30
  /\ light1 (lts (prepare_lights UNIT_EU (update true true parked_2s))) = 31.
Proof.
  assert (Hw : units_wf UNIT_EU) by (vm_compute; repeat split; discriminate).
  assert (Hl : -10000 <= light1s (lts parked_2s) <= 10000)
    by (vm_compute; split; discriminate).
  assert (Hc : -32768 <= counter (lts parked_2s) < 32768)
    by (vm_compute; split; [discriminate | reflexivity]).
  assert (Hp : lts (prepare_lights UNIT_EU parked_2s) = lts parked_2s)
    by (vm_compute; reflexivity).
  assert (He : previousStateCLK (enc parked_2s) = false)
    by (vm_compute; reflexivity).
  assert (Hs : displaysleeping (slw parked_2s) <> 1)
    by (vm_compute; discriminate).
  assert (H30 : light1 (lts parked_2s) = 30) by (vm_compute; reflexivity).
  split; [exact Hw|]. split; [exact Hp|]. split; [exact H30|].
  rewrite (proj1 (encoder_step_moves_stop_distance
                    UNIT_EU parked_2s true Hw Hl Hc Hp He Hs)).
  rewrite H30. vm_compute. reflexivity.
Defined.

Lemma encoder_switch_pressed_awake (distance1 : Q) (m : machine) :
  displaysleeping (slw m) <> 1 ->
  let m1 := encoder_switch_pressed distance1 m in
  counter (lts m1) = float_to_int (distance1 - inject_Z (light1s (lts m)))
  /\ light1s (lts m1) = light1s (lts m)
  /\ leds_off (tmr m1) = 0 /\ start_timeout (tmr m1) = 0.
Proof.
  intros Hs. apply Z.eqb_neq in Hs. unfold encoder_switch_pressed.
  rewrite Hs. simp_state. repeat split; reflexivity.
Qed.

Lemma float_to_int_above (d : Q) (l : Z) :
  0 <= l <= 10000 -> (inject_Z l <= d)%Q -> (d < inject_Z 10000)%Q ->
  float_to_int (d - inject_Z l) = Qfloor d - l.
Proof.
  intros Hl Hle Hlt. destruct d as [n p].
  unfold float_to_int, Qminus, Qplus, Qopp, inject_Z, Qfloor, Qle, Qlt in *.
  cbn [Qnum Qden] in *. rewrite Pos.mul_1_r.
  rewrite Z.mul_1_r in *.
  assert (Hp : 0 < Z.pos p) by reflexivity.
  assert (H0 : 0 <= n + - l * Z.pos p) by lia.
  rewrite Z.quot_div_nonneg by lia.
  rewrite Z.div_add by lia.
  assert (Hq : l <= n / Z.pos p < 10000).
  { split; [apply Z.div_le_lower_bound | apply Z.div_lt_upper_bound]; lia. }
  apply int16_small. lia.
Qed.

(** Pressing the encoder switch while the display is on takes the distance
    of the previous pass as the new stop distance: its whole units, kept
    within [range_min .. range_max].  (Stated for a car at or beyond the
    stored base distance [light1s].) *)
Theorem switch_takes_distance_as_stop
        (cfg : units) (m : machine) (distance1 : Q) :
  units_wf cfg -> displaysleeping (slw m) <> 1 ->
  0 <= light1s (lts m) <= 10000 ->
  (inject_Z (light1s (lts m)) <= distance1)%Q ->
  (distance1 < inject_Z 10000)%Q ->
  let m' := prepare_lights cfg (encoder_switch_pressed distance1 m) in
  light1 (lts m')
  = Z.max (range_min cfg) (Z.min (range_max cfg) (Qfloor distance1))
  /\ light1s (lts m') = light1s (lts m)
  /\ leds_off (tmr m') = 0.
Proof.
  intros Hw Hs Hl Hle Hlt m'.
  destruct (encoder_switch_pressed_awake distance1 m Hs) as (U1 & U2 & U3 & _).
  cbv zeta in U1, U2, U3.
  rewrite (float_to_int_above distance1 _ Hl Hle Hlt) in U1.
  assert (Hf : light1s (lts m) <= Qfloor distance1 < 10000).
  { split.
    - rewrite <- (Qfloor_Z (light1s (lts m))). apply Qfloor_resp_le. exact Hle.
    - apply Z.lt_le_trans with (m := Qceiling (inject_Z 10000)).
      + destruct (Z_lt_le_dec (Qfloor distance1) 10000) as [H|H];
          [rewrite Qceiling_Z; exact H|].
        exfalso. apply (Qlt_not_le _ _ Hlt).
        apply Qle_trans with (y := inject_Z (Qfloor distance1)).
        * rewrite <- Zle_Qle. exact H.
        * apply Qfloor_le.
      + rewrite Qceiling_Z. lia. }
  assert (Hmm : range_min cfg <= range_max cfg) by (unfold units_wf in Hw; lia).
  destruct (prepare_lights_light1 cfg (encoder_switch_pressed distance1 m) Hmm)
    as (L1 & L2 & L3).
  destruct (prepare_lights_counter cfg (encoder_switch_pressed distance1 m) Hw)
    as (_ & Q2 & _).
  { rewrite U2. lia. }
  { rewrite U1. lia. }
  destruct (prepare_lights_frame cfg (encoder_switch_pressed distance1 m))
    as (_ & _ & F & _).
  cbv zeta in L1, L2, L3, Q2. rewrite U1, U2 in L1, L2, L3.
  replace (Qfloor distance1 - light1s (lts m) + light1s (lts m))
    with (Qfloor distance1) in L1, L2, L3 by lia.
  rewrite int16_small in L1, L2, L3 by lia.
  unfold m'. rewrite F, Q2, U2, U3. repeat split; try reflexivity.
  destruct (Z_lt_dec (Qfloor distance1) (range_min cfg))
    as [Hlo|Hlo]; [rewrite (L1 Hlo); lia|].
  destruct (Z_lt_dec (range_max cfg) (Qfloor distance1))
    as [Hhi|Hhi]; [rewrite (L2 Hhi); lia|].
  rewrite L3 by lia. lia.
Qed.

Lemma switch_takes_distance_as_stop_witness :
  units_wf UNIT_EU
  /\ displaysleeping (slw parked_2s) <> 1
  /\ light1 (lts (prepare_lights UNIT_EU
                    (encoder_switch_pressed (1153 # 10) parked_2s))) = 115.
Proof.
  assert (Hw : units_wf UNIT_EU) by (vm_compute; repeat split; discriminate).
  assert (Hs : displaysleeping (slw parked_2s) <> 1)
    by (vm_compute; discriminate).
  assert (Hl : 0 <= light1s (lts parked_2s) <= 10000)
    by (vm_compute; split; discriminate).
  assert (Hle : (inject_Z (light1s (lts parked_2s)) <= 1153 # 10)%Q)
    by (vm_compute; discriminate).
  assert (Hlt : (1153 # 10 < inject_Z 10000)%Q) by (vm_compute; reflexivity).
  split; [exact Hw|]. split; [exact Hs|].
  rewrite (proj1 (switch_takes_distance_as_stop
                    UNIT_EU parked_2s (1153 # 10) Hw Hs Hl Hle Hlt)).
  vm_compute. reflexivity.
Defined.

(** ** Single-precision arithmetic *)

Lemma pow2_pos (e : Z) : (0 < pow2 e)%Q.
Proof. apply Qpower_0_lt. reflexivity. Qed.

Lemma pow2_add (a b : Z) : (pow2 (a + b) == pow2 a * pow2 b)%Q.
Proof. apply Qpower_plus. discriminate. Qed.

Lemma pow2_le (a b : Z) : a <= b -> (pow2 a <= pow2 b)%Q.
Proof. intros H. apply Qpower_le_compat_l; [exact H | discriminate]. Qed.

Lemma pow2_lt (a b : Z) : a < b -> (pow2 a < pow2 b)%Q.
Proof. intros H. apply Qpower_lt_compat_l; [exact H | reflexivity]. Qed.

Lemma pow2_Z (e : Z) : 0 <= e -> (pow2 e == inject_Z (2 ^ e))%Q.
Proof. intros H. symmetry. apply (Zpower_Qpower 2 e H). Qed.

Lemma pow2_split (a b : Z) : (pow2 a == pow2 (a - b) * pow2 b)%Q.
Proof. rewrite <- pow2_add. replace (a - b + b) with a by lia. reflexivity. Qed.

Lemma div_pow2 (x : Q) (q : Z) : (x / pow2 q * pow2 q == x)%Q.
Proof. field. pose proof (pow2_pos q). lra. Qed.

(** [ilog2] *)
Lemma ilog2_spec (x : Q) :
  ~ (x == 0)%Q ->
  (pow2 (ilog2 x) <= Qabs x /\ Qabs x < pow2 (ilog2 x + 1))%Q.
Proof.
  intros Hx. destruct x as [n d]. unfold ilog2. cbn [Qnum Qden].
  set (a := Z.log2 (Z.abs n)). set (b := Z.log2 (Z.pos d)).
  assert (Hn : 0 < Z.abs n).
  { unfold Qeq in Hx. cbn in Hx. lia. }
  destruct (Z.log2_spec (Z.abs n) Hn) as [Ha1 Ha2]. fold a in Ha1, Ha2.
  destruct (Z.log2_spec (Z.pos d) eq_refl) as [Hb1 Hb2]. fold b in Hb1, Hb2.
  assert (Ha0 : 0 <= a) by apply Z.log2_nonneg.
  assert (Hb0 : 0 <= b) by apply Z.log2_nonneg.
  assert (Habs : Qabs (n # d) = (Z.abs n # d)) by reflexivity.
  assert (Hpa : 0 < 2 ^ a) by (apply Z.pow_pos_nonneg; lia).
  assert (Hpb : 0 < 2 ^ b) by (apply Z.pow_pos_nonneg; lia).
  (* bounds of |x| * 2^b against powers of two *)
  assert (U : (Qabs (n # d) * pow2 b < pow2 (a + 1))%Q).
  { rewrite Habs, (pow2_Z b Hb0), (pow2_Z (a + 1)) by lia.
    unfold Qlt, Qmult, inject_Z. cbn [Qnum Qden].
    rewrite Pos.mul_1_r, Z.mul_1_r. replace (Z.succ a) with (a + 1) in Ha2 by lia.
    nia. }
  assert (L : (pow2 (a - 1) < Qabs (n # d) * pow2 b)%Q).
  { apply Qmult_lt_r with (z := pow2 1); [apply pow2_pos|].
    rewrite <- pow2_add. replace (a - 1 + 1) with a by lia.
    rewrite Habs, (pow2_Z b Hb0), (pow2_Z a Ha0).
    change (pow2 1) with (inject_Z 2).
    unfold Qlt, Qmult, inject_Z. cbn [Qnum Qden].
    rewrite !Pos.mul_1_r, Z.mul_1_r.
    replace (Z.succ b) with (b + 1) in Hb2 by lia.
    rewrite Z.pow_add_r in Hb2 by lia. change (2 ^ 1) with 2 in Hb2. nia. }
  assert (U' : (Qabs (n # d) < pow2 (a - b + 1))%Q).
  { apply Qmult_lt_r with (z := pow2 b); [apply pow2_pos|].
    rewrite <- pow2_add. replace (a - b + 1 + b) with (a + 1) by lia. exact U. }
  assert (L' : (pow2 (a - b - 1) < Qabs (n # d))%Q).
  { apply Qmult_lt_r with (z := pow2 b); [apply pow2_pos|].
    rewrite <- pow2_add. replace (a - b - 1 + b) with (a - 1) by lia. exact L. }
  destruct (Qle_bool (pow2 (a - b)) (Qabs (n # d))) eqn:E.
  - apply Qle_bool_iff in E. split; assumption.
  - split; [apply Qlt_le_weak; exact L'|].
    replace (a - b - 1 + 1) with (a - b) by lia.
    apply Qnot_le_lt. intros H. apply Qle_bool_iff in H. congruence.
Qed.

Lemma ilog2_unique (x : Q) (e : Z) :
  (pow2 e <= Qabs x)%Q -> (Qabs x < pow2 (e + 1))%Q -> ilog2 x = e.
Proof.
  intros H1 H2.
  assert (Hx : ~ (x == 0)%Q).
  { intros E. rewrite E in H1. pose proof (pow2_pos e). cbn in H1. lra. }
  destruct (ilog2_spec x Hx) as [S1 S2].
  destruct (Z.lt_trichotomy (ilog2 x) e) as [C | [C | C]]; [|exact C|].
  - exfalso. assert (pow2 (ilog2 x + 1) <= pow2 e)%Q by (apply pow2_le; lia). lra.
  - exfalso. assert (pow2 (e + 1) <= pow2 (ilog2 x))%Q by (apply pow2_le; lia). lra.
Qed.

Lemma ilog2_comp (x y : Q) : ~ (x == 0)%Q -> (x == y)%Q -> ilog2 x = ilog2 y.
Proof.
  intros Hx E. destruct (ilog2_spec x Hx) as [S1 S2].
  symmetry. apply ilog2_unique; rewrite <- E; assumption.
Qed.

Lemma ilog2_le (x y : Q) : (0 < x)%Q -> (x <= y)%Q -> ilog2 x <= ilog2 y.
Proof.
  intros Hx Hxy.
  assert (Hx0 : ~ (x == 0)%Q) by lra. assert (Hy0 : ~ (y == 0)%Q) by lra.
  destruct (ilog2_spec x Hx0) as [X1 X2]. destruct (ilog2_spec y Hy0) as [Y1 Y2].
  rewrite Qabs_pos in X1, X2 by lra. rewrite Qabs_pos in Y1, Y2 by lra.
  destruct (Z_le_gt_dec (ilog2 x) (ilog2 y)) as [C|C]; [exact C|].
  exfalso. assert (pow2 (ilog2 y + 1) <= pow2 (ilog2 x))%Q by (apply pow2_le; lia).
  lra.
Qed.

(** [rne] *)
Lemma rne_spec (x : Q) :
  (inject_Z (rne x) - (1 # 2) <= x /\ x <= inject_Z (rne x) + (1 # 2))%Q.
Proof.
  unfold rne. pose proof (Qfloor_le x) as F1. pose proof (Qlt_floor x) as F2.
  rewrite inject_Z_plus in F2. change (inject_Z 1) with 1%Q in F2.
  destruct (x - inject_Z (Qfloor x) ?= 1 # 2)%Q eqn:C.
  - apply Qeq_alt in C. destruct (Z.even (Qfloor x));
      rewrite ?inject_Z_plus; change (inject_Z 1) with 1%Q; lra.
  - apply Qlt_alt in C. lra.
  - apply Qgt_alt in C. rewrite inject_Z_plus. change (inject_Z 1) with 1%Q. lra.
Qed.

Lemma rne_comp (x y : Q) : (x == y)%Q -> rne x = rne y.
Proof.
  intros E. unfold rne. rewrite (Qfloor_comp x y E).
  assert (E' : (x - inject_Z (Qfloor y) == y - inject_Z (Qfloor y))%Q)
    by (rewrite E; reflexivity).
  rewrite (Qcompare_comp _ _ E' (1 # 2) (1 # 2) (Qeq_refl _)). reflexivity.
Qed.

Lemma rne_Z (n : Z) : rne (inject_Z n) = n.
Proof.
  unfold rne. rewrite Qfloor_Z.
  assert (E : (inject_Z n - inject_Z n ?= 1 # 2)%Q = Lt).
  { assert (H : (inject_Z n - inject_Z n < 1 # 2)%Q) by lra. exact H. }
  rewrite E. reflexivity.
Qed.

Lemma rne_le (x y : Q) : (x <= y)%Q -> rne x <= rne y.
Proof.
  intros H. destruct (Z_le_gt_dec (rne x) (rne y)) as [C|C]; [exact C|].
  exfalso. destruct (rne_spec x) as [X1 _]. destruct (rne_spec y) as [_ Y2].
  assert (I : (inject_Z (rne y) + 1 <= inject_Z (rne x))%Q).
  { change 1%Q with (inject_Z 1). rewrite <- inject_Z_plus, <- Zle_Qle. lia. }
  assert (E : (x == y)%Q) by lra.
  apply rne_comp in E. lia.
Qed.

(** [float32] *)
Lemma float32_zero (x : Q) : (x == 0)%Q -> (float32 x == 0)%Q.
Proof.
  intros E. unfold float32. cbv zeta.
  set (q := Z.max (-149) (ilog2 x - 23)).
  assert (E' : (x / pow2 q == inject_Z 0)%Q).
  { rewrite E. unfold Qdiv. rewrite Qmult_0_l. reflexivity. }
  rewrite (rne_comp _ _ E'), rne_Z. apply Qmult_0_l.
Qed.

Lemma float32_comp (x y : Q) : (x == y)%Q -> (float32 x == float32 y)%Q.
Proof.
  intros E. destruct (Qeq_dec x 0) as [Z0|N0].
  - rewrite (float32_zero x Z0), (float32_zero y); [reflexivity|].
    rewrite <- E. exact Z0.
  - unfold float32. cbv zeta. rewrite <- (ilog2_comp x y N0 E).
    set (q := Z.max (-149) (ilog2 x - 23)).
    assert (E' : (x / pow2 q == y / pow2 q)%Q) by (rewrite E; reflexivity).
    rewrite (rne_comp _ _ E'). reflexivity.
Qed.

Lemma float32_nonneg (x : Q) : (0 <= x)%Q -> (0 <= float32 x)%Q.
Proof.
  intros H. unfold float32. cbv zeta.
  set (q := Z.max (-149) (ilog2 x - 23)).
  apply Qmult_le_0_compat; [|apply Qlt_le_weak, pow2_pos].
  change 0%Q with (inject_Z 0). rewrite <- Zle_Qle.
  rewrite <- (rne_Z 0). apply rne_le.
  change (inject_Z 0) with 0%Q. apply Qle_shift_div_l; [apply pow2_pos|lra].
Qed.

(** Values [m * 2^e] with [|m| < 2^24] and [e >= -149] are floats. *)
Lemma float32_exact (m e : Z) :
  Z.abs m < 2 ^ 24 -> -149 <= e ->
  (float32 (inject_Z m * pow2 e) == inject_Z m * pow2 e)%Q.
Proof.
  intros Hm He. set (x := (inject_Z m * pow2 e)%Q).
  destruct (Z.eq_dec m 0) as [-> | Hm0].
  { assert (E0 : (x == 0)%Q) by (unfold x; apply Qmult_0_l).
    rewrite (float32_zero x E0). symmetry. exact E0. }
  assert (Hx0 : ~ (x == 0)%Q).
  { unfold x. intros E. apply Qmult_integral in E. destruct E as [E|E].
    - unfold Qeq in E. cbn in E. lia.
    - pose proof (pow2_pos e). lra. }
  destruct (ilog2_spec x Hx0) as [S1 S2].
  assert (Habs : (Qabs x == inject_Z (Z.abs m) * pow2 e)%Q).
  { unfold x. rewrite Qabs_Qmult. rewrite (Qabs_pos (pow2 e)).
    - reflexivity.
    - apply Qlt_le_weak, pow2_pos. }
  assert (Hi : ilog2 x - 23 <= e).
  { destruct (Z_le_gt_dec (ilog2 x - 23) e) as [C|C]; [exact C|]. exfalso.
    assert (P : (pow2 (24 + e) <= pow2 (ilog2 x))%Q) by (apply pow2_le; lia).
    assert (B : (Qabs x < pow2 (24 + e))%Q).
    { rewrite Habs, pow2_add, (pow2_Z 24) by lia.
      apply Qmult_lt_r; [apply pow2_pos|]. rewrite <- Zlt_Qlt. exact Hm. }
    lra. }
  unfold float32. cbv zeta. fold x.
  set (q := Z.max (-149) (ilog2 x - 23)).
  assert (Hq : q <= e) by (unfold q; lia).
  assert (E : (x / pow2 q == inject_Z (m * 2 ^ (e - q)))%Q).
  { unfold x. rewrite (pow2_split e q), inject_Z_mult, <- (pow2_Z (e - q)) by lia.
    field. pose proof (pow2_pos q). lra. }
  rewrite (rne_comp _ _ E), rne_Z.
  rewrite inject_Z_mult, <- (pow2_Z (e - q)) by lia.
  unfold x. rewrite (pow2_split e q). ring.
Qed.

Lemma float32_Z (n : Z) :
  Z.abs n < 2 ^ 24 -> (float32 (inject_Z n) == inject_Z n)%Q.
Proof.
  intros H. pose proof (float32_exact n 0 H ltac:(lia)) as E.
  change (pow2 0) with 1%Q in E.
  rewrite <- (float32_comp (inject_Z n * 1) (inject_Z n)) by ring.
  rewrite E. ring.
Qed.

Lemma float32_le (x y : Q) :
  (0 <= x)%Q -> (x <= y)%Q -> (float32 x <= float32 y)%Q.
Proof.
  intros Hx Hxy. destruct (Qeq_dec x 0) as [Z0|N0].
  { rewrite (float32_zero x Z0). apply float32_nonneg. lra. }
  assert (Px : (0 < x)%Q) by lra. assert (Py : (0 < y)%Q) by lra.
  assert (Ny : ~ (y == 0)%Q) by lra.
  pose proof (ilog2_le x y Px Hxy) as Hl.
  destruct (ilog2_spec x N0) as [X1 X2]. destruct (ilog2_spec y Ny) as [Y1 Y2].
  rewrite Qabs_pos in X1, X2 by lra. rewrite Qabs_pos in Y1, Y2 by lra.
  unfold float32. cbv zeta.
  set (qx := Z.max (-149) (ilog2 x - 23)). set (qy := Z.max (-149) (ilog2 y - 23)).
  assert (Hq : qx <= qy) by (unfold qx, qy; lia).
  destruct (Z.eq_dec qx qy) as [E|NE].
  - rewrite <- E. apply Qmult_le_compat_r; [|apply Qlt_le_weak, pow2_pos].
    rewrite <- Zle_Qle. apply rne_le.
    apply Qmult_le_compat_r; [exact Hxy|].
    apply Qlt_le_weak, Qinv_lt_0_compat, pow2_pos.
  - assert (Hy : qy = ilog2 y - 23) by (unfold qx, qy in *; lia).
    assert (Hey : qx + 24 <= ilog2 y) by (unfold qx, qy in *; lia).
    apply Qle_trans with (y := pow2 (ilog2 y)).
    + (* float32 x <= 2 ^ ey *)
      rewrite (pow2_split (ilog2 y) qx), (pow2_Z (ilog2 y - qx)) by lia.
      apply Qmult_le_compat_r; [|apply Qlt_le_weak, pow2_pos].
      rewrite <- Zle_Qle. rewrite <- (rne_Z (2 ^ (ilog2 y - qx))). apply rne_le.
      rewrite <- (pow2_Z (ilog2 y - qx)) by lia.
      apply Qle_shift_div_r; [apply pow2_pos|].
      rewrite <- pow2_split.
      apply Qle_trans with (y := pow2 (ilog2 x + 1)); [lra|].
      apply pow2_le. unfold qx in *. lia.
    + (* 2 ^ ey <= float32 y *)
      rewrite (pow2_split (ilog2 y) qy) at 1.
      apply Qmult_le_compat_r; [|apply Qlt_le_weak, pow2_pos].
      replace (ilog2 y - qy) with 23 by lia.
      rewrite (pow2_Z 23) by lia. rewrite <- Zle_Qle.
      rewrite <- (rne_Z (2 ^ 23)). apply rne_le.
      rewrite <- (pow2_Z 23) by lia.
      apply Qle_shift_div_l; [apply pow2_pos|].
      rewrite <- pow2_add. replace (23 + qy) with (ilog2 y) by lia. exact Y1.
Qed.

(** ** Ultrasonic sensor *)

Lemma float_of_int_exact (n : Z) :
  Z.abs n < 2 ^ 24 -> (float_of_int n == inject_Z n)%Q.
Proof. apply float32_Z. Qed.

Lemma fdiv_le (a b c : Q) :
  (0 <= a)%Q -> (a <= b)%Q -> (0 < c)%Q -> (fdiv a c <= fdiv b c)%Q.
Proof.
  intros Ha Hab Hc. unfold fdiv. apply float32_le.
  - apply Qle_shift_div_l; [exact Hc | lra].
  - apply Qmult_le_compat_r; [exact Hab|].
    apply Qlt_le_weak, Qinv_lt_0_compat. exact Hc.
Qed.

Lemma fadd_le (a b c d : Q) :
  (0 <= a)%Q -> (0 <= c)%Q -> (a <= b)%Q -> (c <= d)%Q ->
  (fadd a c <= fadd b d)%Q.
Proof. intros. unfold fadd. apply float32_le; lra. Qed.

Lemma fdiv_comp (a b c d : Q) :
  (a == b)%Q -> (c == d)%Q -> (fdiv a c == fdiv b d)%Q.
Proof. intros E1 E2. unfold fdiv. apply float32_comp. rewrite E1, E2. reflexivity. Qed.

Lemma fadd_comp (a b c d : Q) :
  (a == b)%Q -> (c == d)%Q -> (fadd a c == fadd b d)%Q.
Proof. intros E1 E2. unfold fadd. apply float32_comp. rewrite E1, E2. reflexivity. Qed.

(** A float that is not zero is at least the smallest float. *)
Lemma float32_min (x : Q) :
  (0 <= x)%Q -> ~ (float32 x == 0)%Q -> (pow2 (-149) <= float32 x)%Q.
Proof.
  intros Hx Hn. pose proof (float32_nonneg x Hx) as H0. revert Hn H0.
  unfold float32. cbv zeta.
  set (q := Z.max (-149) (ilog2 x - 23)). set (M := rne (x / pow2 q)).
  intros Hn H0.
  assert (HM : 1 <= M).
  { destruct (Z_lt_le_dec M 1) as [C|C]; [|exact C]. exfalso.
    assert (M0 : (inject_Z M <= 0)%Q)
      by (change 0%Q with (inject_Z 0); rewrite <- Zle_Qle; lia).
    pose proof (pow2_pos q) as Pq.
    assert (N : (inject_Z M * pow2 q <= 0)%Q).
    { setoid_replace 0%Q with (0 * pow2 q)%Q by ring.
      apply Qmult_le_compat_r; lra. }
    apply Hn. lra. }
  apply Qle_trans with (y := pow2 q); [apply pow2_le; unfold q; lia|].
  setoid_replace (pow2 q) with (1 * pow2 q)%Q at 1 by ring.
  apply Qmult_le_compat_r; [|apply Qlt_le_weak, pow2_pos].
  change 1%Q with (inject_Z 1). rewrite <- Zle_Qle. exact HM.
Qed.

Lemma float32_lower (c x : Q) (m e : Z) :
  (c == inject_Z m * pow2 e)%Q -> 0 <= m < 2 ^ 24 -> -149 <= e ->
  (c <= x)%Q -> (c <= float32 x)%Q.
Proof.
  intros Ec Hm He Hcx.
  assert (Hc0 : (0 <= c)%Q).
  { rewrite Ec. apply Qmult_le_0_compat; [|apply Qlt_le_weak, pow2_pos].
    change 0%Q with (inject_Z 0). rewrite <- Zle_Qle. lia. }
  rewrite <- (float32_exact m e) in Ec by lia.
  rewrite Ec at 1. rewrite <- (float32_comp c) by (rewrite Ec; apply float32_exact; lia).
  apply float32_le; assumption.
Qed.

Lemma float32_upper (c x : Q) (m e : Z) :
  (c == inject_Z m * pow2 e)%Q -> 0 <= m < 2 ^ 24 -> -149 <= e ->
  (0 <= x)%Q -> (x <= c)%Q -> (float32 x <= c)%Q.
Proof.
  intros Ec Hm He Hx Hxc.
  assert (E : (float32 c == c)%Q).
  { rewrite (float32_comp c _ Ec), Ec. apply float32_exact; lia. }
  rewrite <- E. apply float32_le; assumption.
Qed.

Lemma int_as_float (n : Z) : (inject_Z n == inject_Z n * pow2 0)%Q.
Proof. change (pow2 0) with 1%Q. ring. Qed.

Lemma read_sample_no_echo (cfg : units) :
  read_sample cfg 0 = float_of_int (range_limit cfg).
Proof.
  unfold read_sample. cbv zeta.
  set (f := float_of_int (ultrasonic_factor cfg)).
  assert (E0 : (float_of_int 0 == 0)%Q) by (apply float32_zero; reflexivity).
  assert (E1 : (fdiv (float_of_int 0) 2 == 0)%Q).
  { unfold fdiv. apply float32_zero. rewrite E0. reflexivity. }
  assert (E2 : (fdiv (fdiv (float_of_int 0) 2) f == 0)%Q).
  { unfold fdiv at 1. apply float32_zero. rewrite E1. unfold Qdiv.
    apply Qmult_0_l. }
  apply Qeq_bool_iff in E2. rewrite E2, orb_true_r. reflexivity.
Qed.

Lemma dist_m_nonneg (cfg : units) (duration : Z) :
  0 < ultrasonic_factor cfg -> 0 <= duration ->
  (0 <= fdiv (float_of_int duration) 2
        / float_of_int (ultrasonic_factor cfg))%Q.
Proof.
  intros Hf Hd.
  assert (Hf0 : (0 <= float_of_int (ultrasonic_factor cfg))%Q).
  { apply float32_nonneg. change 0%Q with (inject_Z 0). rewrite <- Zle_Qle. lia. }
  apply Qmult_le_0_compat; [|apply Qinv_le_0_compat; exact Hf0].
  unfold fdiv. apply float32_nonneg. apply Qmult_le_0_compat; [|discriminate].
  apply float32_nonneg. change 0%Q with (inject_Z 0). rewrite <- Zle_Qle.
  exact Hd.
Qed.

Lemma sample_cases (r x : Q) :
  (1 <= r)%Q -> (0 <= x)%Q -> (~ (x == 0)%Q -> pow2 (-149) <= x)%Q ->
  let s := if Qlt_bool r x || Qeq_bool x 0 then r else x in
  (pow2 (-149) <= s /\ s <= r)%Q.
Proof.
  intros Hr Hx Hmin s.
  assert (Hsmall : (pow2 (-149) <= 1)%Q)
    by (change 1%Q with (pow2 0); apply pow2_le; lia).
  unfold s. destruct (Qlt_bool r x) eqn:E1; cbn [orb].
  - split; lra.
  - destruct (Qeq_bool x 0) eqn:E2.
    + split; lra.
    + split.
      * apply Hmin. intros E. apply Qeq_bool_iff in E. congruence.
      * unfold Qlt_bool in E1. apply negb_false_iff, Qle_bool_iff in E1.
        exact E1.
Qed.

Lemma read_sample_bounds (cfg : units) (duration : Z) :
  0 < range_limit cfg < 32768 -> 0 < ultrasonic_factor cfg -> 0 <= duration ->
  (pow2 (-149) <= read_sample cfg duration
   /\ read_sample cfg duration <= inject_Z (range_limit cfg))%Q.
Proof.
  intros Hr Hf Hd.
  assert (ER : (float_of_int (range_limit cfg) == inject_Z (range_limit cfg))%Q)
    by (apply float_of_int_exact; lia).
  assert (Hrl : (1 <= float_of_int (range_limit cfg))%Q).
  { rewrite ER. change 1%Q with (inject_Z 1). rewrite <- Zle_Qle. lia. }
  pose proof (dist_m_nonneg cfg duration Hf Hd) as N.
  pose proof (sample_cases (float_of_int (range_limit cfg))
                (fdiv (fdiv (float_of_int duration) 2)
                      (float_of_int (ultrasonic_factor cfg))) Hrl) as H.
  cbv zeta in H. rewrite <- ER.
  apply H.
  - unfold fdiv at 1. apply float32_nonneg. exact N.
  - unfold fdiv at 1 2. apply float32_min. exact N.
Qed.

(** The mean of three samples between the smallest float and [r]. *)
Lemma mean_bounds (r : Z) (a b c : Q) :
  0 < r < 32768 ->
  (pow2 (-149) <= a <= inject_Z r)%Q -> (pow2 (-149) <= b <= inject_Z r)%Q ->
  (pow2 (-149) <= c <= inject_Z r)%Q ->
  (0 < fdiv (fadd (fadd (fadd 0 a) b) c) (float_of_int 3)
   /\ fdiv (fadd (fadd (fadd 0 a) b) c) (float_of_int 3) <= inject_Z r)%Q.
Proof.
  intros Hr [A0 B0] [A1 B1] [A2 B2].
  assert (E3 : (float_of_int 3 == 3)%Q)
    by (apply (float_of_int_exact 3); reflexivity).
  assert (P : (0 < pow2 (-149))%Q) by apply pow2_pos.
  assert (S1 : (pow2 (-149) <= fadd 0 a /\ fadd 0 a <= inject_Z r)%Q).
  { unfold fadd. split.
    - apply (float32_lower _ _ 1 (-149)); [ring | lia | lia | lra].
    - apply (float32_upper _ _ r 0); [apply int_as_float | lia | lia | lra | lra]. }
  destruct S1 as [L1 U1].
  assert (S2 : (2 * pow2 (-149) <= fadd (fadd 0 a) b
                /\ fadd (fadd 0 a) b <= inject_Z (2 * r))%Q).
  { unfold fadd at 1 3. split.
    - apply (float32_lower _ _ 2 (-149)); [reflexivity | lia | lia | lra].
    - apply (float32_upper _ _ (2 * r) 0);
        [apply int_as_float | lia | lia | lra |].
      rewrite inject_Z_mult. change (inject_Z 2) with 2%Q. lra. }
  destruct S2 as [L2 U2].
  rewrite inject_Z_mult in U2. change (inject_Z 2) with 2%Q in U2.
  assert (S3 : (3 * pow2 (-149) <= fadd (fadd (fadd 0 a) b) c
                /\ fadd (fadd (fadd 0 a) b) c <= inject_Z (3 * r))%Q).
  { unfold fadd at 1 4. split.
    - apply (float32_lower _ _ 3 (-149)); [reflexivity | lia | lia | lra].
    - apply (float32_upper _ _ (3 * r) 0);
        [apply int_as_float | lia | lia | lra |].
      rewrite inject_Z_mult. change (inject_Z 3) with 3%Q. lra. }
  destruct S3 as [L3 U3].
  rewrite inject_Z_mult in U3. change (inject_Z 3) with 3%Q in U3.
  set (s := fadd (fadd (fadd 0 a) b) c) in *.
  rewrite (fdiv_comp s s _ 3 (Qeq_refl s) E3). unfold fdiv. split.
  - apply Qlt_le_trans with (y := pow2 (-149)); [exact P|].
    apply (float32_lower _ _ 1 (-149)); [ring | lia | lia |].
    apply Qle_shift_div_l; [reflexivity | lra].
  - apply (float32_upper _ _ r 0); [apply int_as_float | lia | lia | |].
    + apply Qle_shift_div_l; [reflexivity | lra].
    + apply Qle_shift_div_r; [reflexivity | lra].
Qed.

(** The distance handed to the rest of the loop, computed in single
    precision as the sketch does, always lies in [(0, range_limit]]: an echo
    time of 0 (no echo) and anything beyond the limit are read as
    [range_limit], so three rounds without an echo give exactly
    [range_limit]. *)
Theorem sensor_reading_in_range (cfg : units) (d0 d1 d2 : Z) :
  0 < range_limit cfg < 32768 -> 0 < ultrasonic_factor cfg ->
  0 <= d0 -> 0 <= d1 -> 0 <= d2 ->
  (0 < read_distance cfg d0 d1 d2
   /\ read_distance cfg d0 d1 d2 <= inject_Z (range_limit cfg)
   /\ read_distance cfg 0 0 0 == inject_Z (range_limit cfg))%Q.
Proof.
  intros Hr Hf H0 H1 H2.
  pose proof (mean_bounds (range_limit cfg) _ _ _ Hr
                (read_sample_bounds cfg d0 Hr Hf H0)
                (read_sample_bounds cfg d1 Hr Hf H1)
                (read_sample_bounds cfg d2 Hr Hf H2)) as [M1 M2].
  split; [exact M1|]. split; [exact M2|].
  unfold read_distance. rewrite !read_sample_no_echo.
  assert (ER : (float_of_int (range_limit cfg) == inject_Z (range_limit cfg))%Q)
    by (apply float_of_int_exact; lia).
  assert (E3 : (float_of_int 3 == 3)%Q)
    by (apply (float_of_int_exact 3); reflexivity).
  set (r := range_limit cfg) in *.
  assert (T1 : (fadd 0 (float_of_int r) == inject_Z r)%Q).
  { unfold fadd. rewrite (float32_comp _ (inject_Z r)) by (rewrite ER; ring).
    apply float32_Z. lia. }
  assert (T2 : (fadd (fadd 0 (float_of_int r)) (float_of_int r)
                == inject_Z (2 * r))%Q).
  { unfold fadd at 1. rewrite (float32_comp _ (inject_Z (2 * r)))
      by (rewrite T1, ER, inject_Z_mult; change (inject_Z 2) with 2%Q; ring).
    apply float32_Z. lia. }
  assert (T3 : (fadd (fadd (fadd 0 (float_of_int r)) (float_of_int r))
                     (float_of_int r) == inject_Z (3 * r))%Q).
  { unfold fadd at 1. rewrite (float32_comp _ (inject_Z (3 * r)))
      by (rewrite T2, ER, !inject_Z_mult; change (inject_Z 2) with 2%Q;
          change (inject_Z 3) with 3%Q; ring).
    apply float32_Z. lia. }
  unfold fdiv. rewrite (float32_comp _ (inject_Z r)).
  - apply float32_Z. lia.
  - rewrite T3, E3, inject_Z_mult. change (inject_Z 3) with 3%Q. field.
Qed.

Lemma sensor_reading_in_range_witness :
  0 < range_limit UNIT_EU < 32768 /\ 0 < ultrasonic_factor UNIT_EU
  /\ (read_distance UNIT_EU 4 3812 1404 == 15728639 # 524288)%Q
  /\ (read_distance UNIT_EU 4 3812 1404 <= inject_Z (range_limit UNIT_EU))%Q.
Proof.
  assert (Hr : 0 < range_limit UNIT_EU < 32768) by (split; reflexivity).
  assert (Hf : 0 < ultrasonic_factor UNIT_EU) by reflexivity.
  split; [exact Hr|]. split; [exact Hf|]. split; [vm_compute; reflexivity|].
  refine (proj1 (proj2 (sensor_reading_in_range UNIT_EU 4 3812 1404
                          Hr Hf _ _ _))); discriminate.
Defined.

(** A sample within the measuring range is the correctly rounded quotient
    of the echo time by twice the scale factor. *)
Lemma read_sample_in_range (cfg : units) (duration : Z) :
  0 < range_limit cfg < 32768 -> 0 < ultrasonic_factor cfg <= 128 ->
  0 < duration <= 2 * ultrasonic_factor cfg * range_limit cfg ->
  (read_sample cfg duration
   == float32 (inject_Z duration / inject_Z (2 * ultrasonic_factor cfg)))%Q.
Proof.
  intros Hr Hf Hd.
  set (f := ultrasonic_factor cfg) in *. set (r := range_limit cfg) in *.
  assert (Hd24 : Z.abs duration < 2 ^ 24) by nia.
  assert (Ef : (float_of_int f == inject_Z f)%Q)
    by (apply float_of_int_exact; lia).
  assert (Er : (float_of_int r == inject_Z r)%Q)
    by (apply float_of_int_exact; lia).
  assert (Ed : (float_of_int duration == inject_Z duration)%Q)
    by (apply float_of_int_exact; exact Hd24).
  assert (Fq : (0 < inject_Z f)%Q)
    by (change 0%Q with (inject_Z 0); rewrite <- Zlt_Qlt; lia).
  assert (Dq : (1 <= inject_Z duration)%Q)
    by (change 1%Q with (inject_Z 1); rewrite <- Zle_Qle; lia).
  assert (E1 : (fdiv (float_of_int duration) 2 == inject_Z duration / 2)%Q).
  { unfold fdiv.
    rewrite (float32_comp _ (inject_Z duration * pow2 (-1)))
      by (rewrite Ed; reflexivity).
    rewrite float32_exact by lia. reflexivity. }
  set (x := fdiv (fdiv (float_of_int duration) 2) (float_of_int f)).
  assert (Ex : (x == float32 (inject_Z duration / inject_Z (2 * f)))%Q).
  { unfold x, fdiv at 1. apply float32_comp.
    rewrite E1, Ef, inject_Z_mult. change (inject_Z 2) with 2%Q.
    field. lra. }
  assert (Hq : (inject_Z duration / inject_Z (2 * f) <= inject_Z r)%Q).
  { apply Qle_shift_div_r.
    - change 0%Q with (inject_Z 0). rewrite <- Zlt_Qlt. lia.
    - rewrite <- inject_Z_mult, <- Zle_Qle. lia. }
  assert (Hq0 : (pow2 (-8) <= inject_Z duration / inject_Z (2 * f))%Q).
  { apply Qle_shift_div_l.
    - change 0%Q with (inject_Z 0). rewrite <- Zlt_Qlt. lia.
    - apply Qle_trans with (y := 1%Q); [|exact Dq].
      change (pow2 (-8)) with (1 # 256)%Q.
      assert (inject_Z (2 * f) <= 256)%Q
        by (change 256%Q with (inject_Z 256); rewrite <- Zle_Qle; lia).
      lra. }
  assert (Hx1 : (x <= inject_Z r)%Q).
  { rewrite Ex. apply (float32_upper _ _ r 0);
      [apply int_as_float | lia | lia | | exact Hq].
    pose proof (pow2_pos (-8)). lra. }
  assert (Hx0 : (pow2 (-8) <= x)%Q).
  { rewrite Ex. apply (float32_lower _ _ 1 (-8)); [ring | lia | lia | exact Hq0]. }
  assert (C1 : Qlt_bool (float_of_int r) x = false).
  { unfold Qlt_bool. apply negb_false_iff, Qle_bool_iff. rewrite Er. exact Hx1. }
  assert (C2 : Qeq_bool x 0 = false).
  { apply not_true_is_false. intros H. apply Qeq_bool_iff in H.
    pose proof (pow2_pos (-8)). lra. }
  change (read_sample cfg duration)
    with (if Qlt_bool (float_of_int r) x || Qeq_bool x 0
          then float_of_int r else x).
  rewrite C1, C2. exact Ex.
Qed.

(** The scale factor of the sensor is an [int]: the initialisers 29.1 and
    73.914 lose their fraction, so an echo time within the measuring range
    reads as [duration / 58] centimetres, or [duration / 146] inches,
    rounded to single precision; the rounding shows, for instance, in an
    echo time of 4 microseconds. *)
Theorem sensor_scale_is_whole (duration : Z) :
  ultrasonic_factor UNIT_EU = 29 /\ ultrasonic_factor UNIT_US = 73
  /\ (0 < duration <= 58 * range_limit UNIT_EU ->
      (read_sample UNIT_EU duration == float32 (duration # 58))%Q)
  /\ (0 < duration <= 146 * range_limit UNIT_US ->
      (read_sample UNIT_US duration == float32 (duration # 146))%Q)
  /\ (read_sample UNIT_EU 4 == 9256395 # 134217728)%Q
  /\ ~ (read_sample UNIT_EU 4 == 4 # 58)%Q.
Proof.
  split; [reflexivity|]. split; [reflexivity|].
  split; [|split; [|split]].
  - intros Hd.
    pose proof (read_sample_in_range UNIT_EU duration) as H.
    change (ultrasonic_factor UNIT_EU) with 29 in H.
    change (range_limit UNIT_EU) with 400 in *.
    rewrite H by lia. apply float32_comp.
    change (inject_Z (2 * 29)) with 58%Q. apply Qeq_sym, Qmake_Qdiv.
  - intros Hd.
    pose proof (read_sample_in_range UNIT_US duration) as H.
    change (ultrasonic_factor UNIT_US) with 73 in H.
    change (range_limit UNIT_US) with 157 in *.
    rewrite H by lia. apply float32_comp.
    change (inject_Z (2 * 73)) with 146%Q. apply Qeq_sym, Qmake_Qdiv.
  - vm_compute. reflexivity.
  - vm_compute. discriminate.
Qed.

Lemma sensor_scale_is_whole_witness :
  0 < 2900 <= 58 * range_limit UNIT_EU
  /\ (read_sample UNIT_EU 2900 == 50)%Q.
Proof.
  assert (H : 0 < 2900 <= 58 * range_limit UNIT_EU)
    by (split; [reflexivity | vm_compute; discriminate]).
  split; [exact H|].
  rewrite (proj1 (proj2 (proj2 (sensor_scale_is_whole 2900))) H).
  vm_compute. reflexivity.
Defined.

Lemma led_tier_far (distance : Q) (x : machine) :
  light0 (lts x) <= light3 (lts x) -> light1 (lts x) <= light3 (lts x) ->
  light2 (lts x) <= light3 (lts x) ->
  (inject_Z (light3 (lts x)) <= distance)%Q ->
  led_tier distance x = OFF
  /\ Qlt_bool distance (inject_Z (light3 (lts x))) = false.
Proof.
  intros H0 H1 H2 Hd.
  assert (F : forall k, k <= light3 (lts x) ->
                        Qlt_bool distance (inject_Z k) = false).
  { intros k Hk. unfold Qlt_bool. apply negb_false_iff, Qle_bool_iff.
    apply Qle_trans with (y := inject_Z (light3 (lts x))); [|exact Hd].
    rewrite <- Zle_Qle. exact Hk. }
  unfold led_tier. cbv zeta.
  rewrite (F _ H0), (F _ H1), (F _ H2), (F _ (Z.le_refl _)).
  rewrite !andb_false_r, !andb_false_l. split; reflexivity.
Qed.

(** Without an echo no LED is lit, whatever stop distance is set, and the
    timeout handling treats the pass as "nothing in range": the largest
    GREEN threshold the thresholds can reach lies below [range_limit]. *)
Theorem no_echo_lights_nothing (cfg : units) (m : machine) :
  units_wf cfg ->
  range_max cfg + light2s cfg + light3s cfg <= range_limit cfg ->
  let x := prepare_lights cfg m in
  let distance := read_distance cfg 0 0 0 in
  led_tier distance x = OFF
  /\ Qlt_bool distance (inject_Z (light3 (lts x))) = false.
Proof.
  intros Hw Hlim x distance.
  destruct (prepare_lights_values cfg m Hw) as (Hr & E2 & E3 & E0 & _).
  cbv zeta in Hr, E2, E3, E0. fold x in Hr, E2, E3, E0.
  unfold units_wf in Hw.
  assert (H0 : light0 (lts x) <= light1 (lts x)).
  { rewrite E0. unfold spec_warning_threshold.
    destruct (light1 (lts x) <? warning_limit (lts m)); lia. }
  apply led_tier_far; try lia.
  unfold distance, read_distance. rewrite !read_sample_no_echo.
  set (g := light3 (lts x)) in *.
  assert (Hg : 0 < g <= 30000) by lia.
  assert (G : (0 < inject_Z g)%Q)
    by (change 0%Q with (inject_Z 0); rewrite <- Zlt_Qlt; lia).
  assert (R : (inject_Z g <= float_of_int (range_limit cfg))%Q).
  { apply (float32_lower _ _ g 0); [apply int_as_float | lia | lia |].
    rewrite <- Zle_Qle. lia. }
  assert (E3' : (float_of_int 3 == 3)%Q)
    by (apply (float_of_int_exact 3); reflexivity).
  set (r := float_of_int (range_limit cfg)) in *.
  assert (T1 : (inject_Z g <= fadd 0 r)%Q).
  { apply (float32_lower _ _ g 0); [apply int_as_float | lia | lia | lra]. }
  assert (T2 : (inject_Z (2 * g) <= fadd (fadd 0 r) r)%Q).
  { apply (float32_lower _ _ (2 * g) 0); [apply int_as_float | lia | lia |].
    rewrite inject_Z_mult. change (inject_Z 2) with 2%Q. lra. }
  rewrite inject_Z_mult in T2. change (inject_Z 2) with 2%Q in T2.
  assert (T3 : (inject_Z (3 * g) <= fadd (fadd (fadd 0 r) r) r)%Q).
  { apply (float32_lower _ _ (3 * g) 0); [apply int_as_float | lia | lia |].
    rewrite inject_Z_mult. change (inject_Z 3) with 3%Q. lra. }
  rewrite inject_Z_mult in T3. change (inject_Z 3) with 3%Q in T3.
  set (s := fadd (fadd (fadd 0 r) r) r) in *.
  rewrite (fdiv_comp s s _ 3 (Qeq_refl s) E3'). unfold fdiv.
  apply (float32_lower _ _ g 0); [apply int_as_float | lia | lia |].
  apply Qle_shift_div_l; [reflexivity | lra].
Qed.

Lemma no_echo_lights_nothing_witness :
  units_wf UNIT_US
  /\ range_max UNIT_US + light2s UNIT_US + light3s UNIT_US
     <= range_limit UNIT_US
  /\ led_tier (read_distance UNIT_US 0 0 0) (prepare_lights UNIT_US parked_2s)
     = OFF.
Proof.
  assert (Hw : units_wf UNIT_US) by (vm_compute; repeat split; discriminate).
  assert (Hl : range_max UNIT_US + light2s UNIT_US + light3s UNIT_US
               <= range_limit UNIT_US) by (vm_compute; discriminate).
  split; [exact Hw|]. split; [exact Hl|].
  exact (proj1 (no_echo_lights_nothing UNIT_US parked_2s Hw Hl)).
Defined.

(** ** The original sketch *)

(** In the original sketch a press of the encoder switch makes the distance
    of the previous pass the stop distance of the next pass. *)
Theorem original_switch_sets_stop_distance
        (s : Original.state) (previous next : Z) :
  Original.light1
    (Original.measure next
       (Original.switch_pressed (Original.measure previous s)))
  = int16 previous.
Proof.
  unfold Original.measure, Original.switch_pressed.
  cbn [Original.light1 Original.counter Original.distance1].
  unfold Original.light1s, int16, two16. lia.
Qed.

(** The LED selection of the original sketch compares strictly on both
    sides, so it leaves gaps: a car exactly at the stop distance, or
    exactly at the yellow/green boundary, gets no LED at all. *)
Theorem original_led_gaps (s : Original.state) (sample distance : Z) :
  -10000 <= Original.counter s <= 10000 ->
  let s' := Original.measure sample s in
  let stop := Original.light1 s' in
  stop = Original.counter s + 12
  /\ (distance < stop -> Original.led distance s' = RED)
  /\ (stop < distance < stop + 24 -> Original.led distance s' = YELLOW)
  /\ (stop + 24 < distance < stop + 72 -> Original.led distance s' = GREEN)
  /\ (distance = stop \/ distance = stop + 24 \/ stop + 72 <= distance ->
      Original.led distance s' = OFF).
Proof.
  intros Hc s' stop.
  assert (E1 : Original.light1 s' = Original.counter s + 12).
  { unfold s', Original.measure. cbn [Original.light1].
    unfold Original.light1s. apply int16_small. lia. }
  assert (E2 : Original.light2 s' = Original.counter s + 36).
  { unfold s', Original.measure. cbn [Original.light2].
    unfold Original.light1s, Original.light2s.
    rewrite (int16_small (_ + 12)) by lia. rewrite int16_small by lia. lia. }
  assert (E3 : Original.light3 s' = Original.counter s + 84).
  { unfold s', Original.measure. cbn [Original.light3].
    unfold Original.light1s, Original.light2s, Original.light3s.
    rewrite (int16_small (_ + 12)) by lia.
    rewrite (int16_small (_ + 24)) by lia. rewrite int16_small by lia. lia. }
  unfold stop, Original.led. rewrite E1, E2, E3.
  repeat split; intros H;
    destruct (distance <? Original.counter s + 12) eqn:T1;
    destruct (Original.counter s + 12 <? distance) eqn:T2;
    destruct (distance <? Original.counter s + 36) eqn:T3;
    destruct (Original.counter s + 36 <? distance) eqn:T4;
    destruct (distance <? Original.counter s + 84) eqn:T5;
    ztests; cbn [andb]; try reflexivity; lia.
Qed.

Lemma original_led_gaps_witness :
  -10000 <= Original.counter
              (Original.mkState 0 0 0 0 0 false false) <= 10000
  /\ Original.led 12 (Original.measure 12
                        (Original.mkState 0 0 0 0 0 false false)) = OFF.
Proof.
  assert (Hc : -10000 <= Original.counter
                           (Original.mkState 0 0 0 0 0 false false) <= 10000)
    by (cbn; lia).
  split; [exact Hc|].
  apply (proj2 (proj2 (proj2 (proj2
           (original_led_gaps (Original.mkState 0 0 0 0 0 false false)
                              12 12 Hc))))).
  left. reflexivity.
Defined.

(** In the original sketch one detent of the encoder moves the stop distance
    of the next pass by exactly one inch, down for DT high and up for DT
    low, with no lower or upper bound applied. *)
Theorem original_encoder_step
        (s : Original.state) (dt : bool) (sample : Z) :
  -10000 <= Original.counter s <= 10000 ->
  Original.previousStateCLK s = false ->
  Original.light1 (Original.measure sample (Original.update true dt s))
  = Original.light1 (Original.measure sample s) + (if dt then -1 else 1).
Proof.
  intros Hc Hp. unfold Original.measure, Original.update.
  rewrite Hp. cbn [negb andb Original.light1 Original.counter].
  unfold Original.light1s.
  destruct dt;
    [rewrite (int16_small (Original.counter s - 1)) by lia
    |rewrite (int16_small (Original.counter s + 1)) by lia];
    rewrite !int16_small by lia; lia.
Qed.

Lemma original_encoder_step_witness :
  -10000 <= Original.counter (Original.mkState 0 0 0 0 0 false false) <= 10000
  /\ Original.light1
       (Original.measure 40
          (Original.update true true
             (Original.mkState 0 0 0 0 0 false false))) = 11.
Proof.
  assert (Hc : -10000 <= Original.counter
                           (Original.mkState 0 0 0 0 0 false false) <= 10000)
    by (cbn; lia).
  split; [exact Hc|].
  rewrite (original_encoder_step (Original.mkState 0 0 0 0 0 false false)
             true 40 Hc eq_refl).
  reflexivity.
Defined.

(** ** The main loop *)

(** One resync adds at most 4294967 seconds. *)
Lemma resync_up_sec_bound (x : machine) :
  0 <= up_sec (upt x) -> up_sec (upt x) + 4294967 < two32 ->
  up_sec (upt x) <= up_sec (upt (update_up_sec_from_millis x))
  <= up_sec (upt x) + 4294967.
Proof.
  intros H0 H1. rewrite (upt_update x). cbv zeta. cbn [up_sec].
  pose proof (wrap32_range (diff_mi (upt (update_up_sec_from_millis x)))) as Hd.
  assert (Hw : diff_mi (upt (update_up_sec_from_millis x))
               = wrap32 (diff_mi (upt (update_up_sec_from_millis x)))).
  { rewrite diff_mi_update.
    destruct (up_mi_old (upt x) <=? millis x);
      unfold wrap32; now rewrite Z.mod_mod by (unfold two32; lia). }
  rewrite Hw. generalize dependent (wrap32 (diff_mi (upt (update_up_sec_from_millis x)))).
  intros d Hd _. unfold is_u32, two32 in *.
  rewrite wrap32_small by (unfold is_u32, two32; lia). lia.
Qed.

Lemma ops_up_sec_bound (x : machine) :
  0 <= up_sec (upt x) -> up_sec (upt x) + 4294967 < two32 ->
  (up_sec (upt x) <= up_sec (upt (wakeDisplay x)) <= up_sec (upt x) + 4294967)
  /\ (up_sec (upt x) <= up_sec (upt (go_sleepDisplay x))
      <= up_sec (upt x) + 4294967).
Proof.
  intros H0 H1. split.
  - destruct (Z.eq_dec (displaysleeping (slw x)) 1) as [Hs|Hs].
    + rewrite (wakeDisplay_asleep x Hs). cbn [upt].
      apply resync_up_sec_bound; assumption.
    + rewrite (wakeDisplay_awake x Hs). cbn [upt]. lia.
  - destruct (Z.eq_dec (displaysleeping (slw x)) 0) as [Hs|Hs].
    + rewrite (go_sleepDisplay_awake x Hs). cbn [upt].
      apply (resync_up_sec_bound (delay 1000 x)); assumption.
    + unfold go_sleepDisplay. apply Z.eqb_neq in Hs. rewrite Hs. lia.
Qed.

Ltac step_timers :=
  cbv beta iota zeta
      delta [car_not_moved count_timeout start_timer_if_unset display_dim
             reset_LEDTimeout
             with_tmr with_hw millis upt slw tmr lts enc hw
             leds_off dimmed start_timeout timeout last_move last_outofrange
             last_dist move_ps clock oled_on oled_dim oled_text eeprom
             ee_writes serial beeps].

(** Whatever the stationary branch does to the timers, to the uptime and
    sleep counters it does nothing, or one wake, or one sleep. *)
Lemma car_not_moved_view (cfg : units) (x : machine) (P : machine -> Prop) :
  0 <= DISPLAY_TIMEOUT cfg ->
  (forall y, slw y = slw x -> upt y = upt x ->
             P y /\ P (wakeDisplay y) /\ P (go_sleepDisplay y)) ->
  P (car_not_moved cfg x).
Proof.
  intros HD HP.
  destruct x as [u s [lo di st ti lm oor ld mp] l e [ck on dm tx ee ew se bp]].
  cbn [slw upt] in HP.
  step_timers.
  destruct (998 <? ti); cbv iota;
    match goal with |- context [if ?c =? 0 then _ else _] =>
      destruct (c =? 0) end; step_timers.
  all: match goal with |- context [if LED_TIMEOUT _ <? ?t then _ else _] =>
         destruct (LED_TIMEOUT cfg <? t) eqn:E end; cbv iota.
  all: try (match goal with |- context [wakeDisplay ?Y] =>
              destruct (wakeDisplay_timers Y) as (_ & _ & _ & W4 & _);
              destruct (HP Y eq_refl eq_refl) as (_ & B & _)
            end;
            cbv beta iota zeta delta [tmr timeout] in W4; rewrite W4;
            match goal with |- context [if ?c then _ else _] =>
              replace c with false
                by (symmetry; apply Z.ltb_ge; apply Z.ltb_ge in E; lia)
            end;
            exact B).
  all: step_timers.
  all: match goal with |- context [if ?c then go_sleepDisplay ?R else _] =>
         destruct (HP R eq_refl eq_refl) as (A & _ & C); destruct c
       end; assumption.
Qed.

Lemma timeout_handling_view
      (cfg : units) (distance : Q) (x : machine) (P : machine -> Prop) :
  0 <= DISPLAY_TIMEOUT cfg ->
  (forall y, slw y = slw x -> upt y = upt x ->
             P y /\ P (wakeDisplay y) /\ P (go_sleepDisplay y)) ->
  P (timeout_handling cfg distance x).
Proof.
  intros HD HP. unfold timeout_handling.
  destruct (Qlt_bool distance (inject_Z (light3 (lts x)))).
  - destruct (500 <? wrap32 (millis x - last_move (tmr x))).
    + cbv zeta.
      destruct (Qlt_bool (Qabs (last_dist (tmr x) - distance) * 2)
                         (inject_Z (range_diff cfg))).
      * apply car_not_moved_view; [exact HD|].
        intros y Hs Hu. apply HP; assumption.
      * match goal with |- P (wakeDisplay ?y) =>
          exact (proj1 (proj2 (HP y eq_refl eq_refl))) end.
    + exact (proj1 (HP x eq_refl eq_refl)).
  - cbv zeta.
    match goal with |- context [if ?c then _ else _] => destruct c end.
    + match goal with |- P (go_sleepDisplay ?y) =>
        exact (proj2 (proj2 (HP y eq_refl eq_refl))) end.
    + unfold start_timer_if_unset.
      match goal with |- context [if ?c then _ else _] => destruct c end;
        match goal with |- P ?y =>
          exact (proj1 (HP y eq_refl eq_refl)) end.
Qed.

Lemma loop_pass_sleep_inv (cfg : units) (now : Z) (distance : Q) (m : machine) :
  0 <= DISPLAY_TIMEOUT cfg -> sleep_inv m ->
  up_sec (upt m) + 2 * 4294967 < two32 ->
  sleep_inv (loop_pass_at cfg now distance m)
  /\ up_sec (upt m) <= up_sec (upt (loop_pass_at cfg now distance m))
     <= up_sec (upt m) + 2 * 4294967.
Proof.
  intros HD Hi Hb. unfold loop_pass_at, loop_pass.
  set (m0 := set_clock now m).
  assert (I1 : sleep_inv (loop_resync m0)
               /\ up_sec (upt m) <= up_sec (upt (loop_resync m0))
                  <= up_sec (upt m) + 4294967).
  { unfold loop_resync. destruct (millis m0 <? up_mi_old (upt m0)).
    - set (y := Serial_println "Loop: Update from millis overflow" m0).
      assert (Hy : sleep_inv y) by exact Hi.
      assert (Eu : upt y = upt m) by reflexivity.
      assert (By : up_sec (upt y) <= up_sec (upt (update_up_sec_from_millis y))
                   <= up_sec (upt y) + 4294967).
      { apply resync_up_sec_bound; rewrite Eu; unfold sleep_inv in Hi; lia. }
      split; [|rewrite Eu in By; exact By].
      apply (apply_op_sleep_inv OpResync y Hy). apply By.
    - split; [exact Hi|]. change (upt m0) with (upt m). lia. }
  destruct I1 as (I1 & B1).
  destruct (prepare_lights_frame cfg (loop_resync m0)) as (Fu & Fs & _).
  apply timeout_handling_view; [exact HD|].
  intros y Hs Hu. rewrite Fs in Hs. rewrite Fu in Hu.
  assert (Hy : sleep_inv y) by (unfold sleep_inv in *; rewrite Hs, Hu; exact I1).
  assert (Hy0 : 0 <= up_sec (upt y)) by (unfold sleep_inv in Hy; lia).
  assert (Hy1 : up_sec (upt y) + 4294967 < two32) by (rewrite Hu; lia).
  destruct (ops_up_sec_bound y Hy0 Hy1) as (Bw & Bs).
  rewrite Hu in Bw, Bs.
  split; [|split].
  - split; [exact Hy | rewrite Hu; lia].
  - split; [|lia]. apply (apply_op_sleep_inv OpWake y Hy).
    cbn [apply_op]. rewrite Hu. lia.
  - split; [|lia]. apply (apply_op_sleep_inv OpGoSleep y Hy).
    cbn [apply_op]. rewrite Hu. lia.
Qed.

(** The sleep accounting is an invariant of the main loop: over any number
    of passes without a button, at any counter readings and distances, the
    accumulated sleep time stays below the start of the sleep window, which
    stays below the uptime, as long as the uptime counter has room for two
    resyncs per pass. *)
Theorem loop_passes_keep_sleep_accounting
        (cfg : units) (evs : list (Z * Q)) (m : machine) :
  0 <= DISPLAY_TIMEOUT cfg -> sleep_inv m ->
  up_sec (upt m) + 2 * 4294967 * Z.of_nat (List.length evs) < two32 ->
  let m' := loop_passes cfg evs m in
  sleep_inv m'
  /\ c_dst (slw m') <= up_sec (upt m')
  /\ up_sec (upt m) <= up_sec (upt m').
Proof.
  intros HD. revert m. unfold loop_passes.
  induction evs as [|[now d] rest IH]; intros m Hi Hb; cbv zeta.
  - cbn [fold_left]. unfold sleep_inv in *. repeat split; lia.
  - cbn [fold_left fst snd]. cbn [List.length] in Hb.
    rewrite Nat2Z.inj_succ in Hb.
    destruct (loop_pass_sleep_inv cfg now d m HD Hi) as (I1 & B1); [lia|].
    destruct (IH (loop_pass_at cfg now d m) I1) as (I2 & C2 & B2); [lia|].
    cbv zeta in I2, C2, B2. repeat split; try apply I2; lia.
Qed.

Lemma loop_passes_keep_sleep_accounting_witness :
  0 <= DISPLAY_TIMEOUT UNIT_EU
  /\ sleep_inv (power_on UNIT_EU 255)
  /\ c_dst (slw (loop_passes UNIT_EU parked_then_moved (power_on UNIT_EU 255)))
     = 26
  /\ up_sec (upt (loop_passes UNIT_EU parked_then_moved
                    (power_on UNIT_EU 255))) = 60
  /\ sleep_inv (loop_passes UNIT_EU parked_then_moved (power_on UNIT_EU 255)).
Proof.
  assert (HD : 0 <= DISPLAY_TIMEOUT UNIT_EU) by (vm_compute; discriminate).
  assert (Hi : sleep_inv (power_on UNIT_EU 255))
    by (vm_compute; repeat split; discriminate).
  assert (Hb : up_sec (upt (power_on UNIT_EU 255))
               + 2 * 4294967 * Z.of_nat (List.length parked_then_moved)
               < two32)
    by (vm_compute; reflexivity).
  split; [exact HD|]. split; [exact Hi|].
  split; [vm_compute; reflexivity|]. split; [vm_compute; reflexivity|].
  exact (proj1 (loop_passes_keep_sleep_accounting UNIT_EU parked_then_moved
                  (power_on UNIT_EU 255) HD Hi Hb)).
Defined.
